(** * Dog breed classification app: a shallow embedding of [app.py]

    The development follows the source file top to bottom:

    - the Python effects the code relies on (exceptions, module globals,
      the flask session, the upload directory) as a state-and-exception
      monad over one [World] record;
    - the detection pipeline ([face_detector], [path_to_tensor],
      [dog_detector], [predict_breed], [main_algorithm]);
    - the three flask views ([index], [uploaded_images], [predictions]).

    The pretrained networks, OpenCV, keras image loading, the directory
    listing order and [flask_uploads] are not code of this repository: they
    are the fields of the class [External], so every theorem holds for any
    choice of them. *)

From Stdlib Require Import QArith Strings.Byte Strings.Ascii.
From stdpp Require Import gmap strings list fin_maps infinite.

Local Open Scope string_scope.
Local Open Scope list_scope.
Local Open Scope nat_scope.

(** ** Python values and effects *)

(** File contents are bytes. *)
Definition content := list Byte.byte.

(** The exceptions that can leave the functions of [app.py]. *)
Inductive exn :=
  | KeyError (key : string)        (* [session[key]] on a missing key *)
  | IndexError                     (* [dog_names[i]] past the end of the table *)
  | NameError (name : string)      (* a module global read before it is set *)
  | ValueError                     (* [np.argmax] of an empty array, a path with NUL *)
  | CvError                        (* [cv2.cvtColor] on an image that was not read *)
  | ImageError                     (* [image.load_img] cannot open the file *)
  | FileNotFoundError              (* a file or directory that is not there *)
  | IsADirectoryError              (* [unlink] of a directory *)
  | OSError                        (* any other failure of the file system *)
  | AttributeError                 (* [file.filename] on [None] *)
  | BuildError                     (* [url_for] of an unknown endpoint *)
  | UploadNotAllowed.              (* [photos.save] refuses the file *)

Inductive res (A : Type) :=
  | Ok (a : A)
  | Raise (e : exn).
Arguments Ok {A} a.
Arguments Raise {A} e.

(** Calls to the three model-backed functions, in the order they start.
    [calls] is ghost state: the source keeps no such log, it is what lets
    "calls" and "never calls" be stated. *)
Inductive Call :=
  | CallFaceDetector (img_path : string)
  | CallDogDetector (img_path : string)
  | CallPredictBreed (img_path : string).

(** The upload directory [./uploads]. It may not exist; when it does, an
    entry is a regular file or a sub-directory ([photos.save] makes one for
    a file name with a directory part). What a sub-directory holds is not
    kept: no view reads or lists below the top level. *)
Inductive entry :=
  | RegularFile (c : content)
  | SubDirectory.

Definition regular (e : entry) : option content :=
  match e with
  | RegularFile c => Some c
  | SubDirectory => None
  end.

Inductive directory :=
  | Missing
  | Present (entries : gmap string entry).

Definition entries (d : directory) : gmap string entry :=
  match d with
  | Missing => ∅
  | Present m => m
  end.

(** [d !! name]: the bytes of the regular file [name] of the directory. *)
#[global] Instance directory_lookup : Lookup string content directory :=
  fun name d => entries d !! name ≫= regular.

(** The existing, empty directory. *)
#[global] Instance directory_empty : Empty directory := Present ∅.

(** The number of entries. *)
#[global] Instance directory_size : Size directory := fun d => size (entries d).

(** Writing a file creates the directory when it is missing. *)
Definition write_file (name : string) (c : content) (d : directory) : directory :=
  Present (<[name := RegularFile c]> (entries d)).

Definition remove_entry (name : string) (d : directory) : directory :=
  match d with
  | Missing => Missing
  | Present m => Present (delete name m)
  end.

(** The directory exists and holds regular files only. *)
Definition flat (d : directory) : Prop :=
  match d with
  | Missing => False
  | Present m => map_Forall (fun _ e => is_Some (regular e)) m
  end.

Record World := mkWorld {
  uploads : directory;                    (* ./uploads *)
  session : gmap string (list string);    (* the flask session of the client *)
  default_graph : nat;                    (* generation of the TF default graph *)
  resnet50_graph : option nat;            (* module global, unset at import *)
  xception_graph : option nat;            (* module global, unset at import *)
  calls : list Call
}.

Definition set_uploads (d : directory) (w : World) : World :=
  mkWorld d (session w) (default_graph w) (resnet50_graph w) (xception_graph w) (calls w).
Definition set_session (s : gmap string (list string)) (w : World) : World :=
  mkWorld (uploads w) s (default_graph w) (resnet50_graph w) (xception_graph w) (calls w).
Definition set_default_graph (g : nat) (w : World) : World :=
  mkWorld (uploads w) (session w) g (resnet50_graph w) (xception_graph w) (calls w).
Definition set_resnet50_graph (g : option nat) (w : World) : World :=
  mkWorld (uploads w) (session w) (default_graph w) g (xception_graph w) (calls w).
Definition set_xception_graph (g : option nat) (w : World) : World :=
  mkWorld (uploads w) (session w) (default_graph w) (resnet50_graph w) g (calls w).
Definition set_calls (c : list Call) (w : World) : World :=
  mkWorld (uploads w) (session w) (default_graph w) (resnet50_graph w) (xception_graph w) c.

(** A computation runs in a world and ends normally or by raising; either
    way the mutations made so far stay. *)
Definition M (A : Type) : Type := World -> res A * World.

Definition ret {A} (a : A) : M A := fun w => (Ok a, w).
Definition raise {A} (e : exn) : M A := fun w => (Raise e, w).
Definition bind {A B} (m : M A) (k : A -> M B) : M B :=
  fun w => match m w with
           | (Ok a, w') => k a w'
           | (Raise e, w') => (Raise e, w')
           end.
Definition get : M World := fun w => (Ok w, w).
Definition modify (f : World -> World) : M unit := fun w => (Ok tt, f w).

Notation "x <- c ;; k" := (bind c (fun x => k))
  (at level 100, c at next level, right associativity).
Notation "c ;;; k" := (bind c (fun _ => k))
  (at level 100, right associativity).

(** The result of a computation, and the world it leaves. *)
Definition run {A} (m : M A) (w : World) : res A := fst (m w).
Definition exec {A} (m : M A) (w : World) : World := snd (m w).

(** The results of a loop body, up to the first that raises. *)
Fixpoint collect {A} (rs : list (res A)) : res (list A) :=
  match rs with
  | [] => Ok []
  | Ok a :: rs' =>
      match collect rs' with
      | Ok l => Ok (a :: l)
      | Raise e => Raise e
      end
  | Raise e :: _ => Raise e
  end.

(** [for x in xs: acc.append(body(x))] *)
Fixpoint for_each {A B} (body : A -> M B) (xs : list A) : M (list B) :=
  match xs with
  | [] => ret []
  | x :: xs' => y <- body x ;; ys <- for_each body xs' ;; ret (y :: ys)
  end.

Definition log_call (c : Call) : M unit :=
  modify (fun w => set_calls (calls w ++ [c]) w).

(** ** numpy *)

(** [np.argmax] over the flattened output: the first index holding the
    maximum. Scores are finite floats, modelled as rationals. *)
Fixpoint argmax_from (best_i : nat) (best : Q) (i : nat) (v : list Q) : nat :=
  match v with
  | [] => best_i
  | x :: v' =>
      if Qle_bool x best
      then argmax_from best_i best (S i) v'
      else argmax_from i x (S i) v'
  end.

Definition argmax (v : list Q) : option nat :=
  match v with
  | [] => None
  | x :: v' => Some (argmax_from 0 x 1 v')
  end.

Definition np_argmax (v : list Q) : M nat :=
  match argmax v with
  | Some i => ret i
  | None => raise ValueError
  end.

(** What [np.argmax] is documented to return: an index of a largest
    entry, the first such one. *)
Definition is_argmax (v : list Q) (i : nat) : Prop :=
  exists x, v !! i = Some x /\
    (forall j y, v !! j = Some y -> (y <= x)%Q) /\
    (forall j y, j < i -> v !! j = Some y -> (y < x)%Q).

(** ** Paths *)

Fixpoint strip_prefix (pre s : string) : option string :=
  match pre with
  | EmptyString => Some s
  | String a pre' =>
      match s with
      | EmptyString => None
      | String b s' => if Ascii.eqb a b then strip_prefix pre' s' else None
      end
  end.

(** A plain file name: not empty, without a directory part, without a
    trailing dot, without a NUL character, and short enough to stay a
    file name (at most 255 bytes) after [photos.save] has numbered it.
    [photos.save] stores a file with such a name under this very name, or
    under a fresh one when it is taken. *)
Fixpoint has_char (c : ascii) (s : string) : bool :=
  match s with
  | EmptyString => false
  | String a s' => Ascii.eqb a c || has_char c s'
  end.

Definition has_slash (s : string) : bool := has_char "/"%char s.

Fixpoint ends_with_dot (s : string) : bool :=
  match s with
  | EmptyString => false
  | String a EmptyString => Ascii.eqb a "."%char
  | String _ s' => ends_with_dot s'
  end.

Definition plain_name (name : string) : bool :=
  negb (String.eqb name "") && negb (has_slash name) && negb (ends_with_dot name)
  && negb (has_char "000"%char name) && (String.length name <=? 200).

(** ** HTTP *)

Inductive Method := GET | POST.

(** werkzeug's [FileStorage]: the client's file name and the bytes. *)
Record FileStorage := mkFile {
  filename : string;
  stream : content
}.

(** A request: its method and [request.files], a [MultiDict] kept as the
    form's (field name, file) pairs in the order they were sent. *)
Record Request := mkRequest {
  method : Method;
  files : list (string * FileStorage)
}.

(** Iterating a [MultiDict] yields each key once, in first-seen order. *)
Fixpoint multidict_keys {V} (seen : list string) (md : list (string * V)) : list string :=
  match md with
  | [] => []
  | (k, _) :: md' =>
      if decide (k ∈ seen) then multidict_keys seen md'
      else k :: multidict_keys (k :: seen) md'
  end.

(** [MultiDict.get(key)]: the first value of the key, [None] without one. *)
Fixpoint multidict_get {V} (key : string) (md : list (string * V)) : option V :=
  match md with
  | [] => None
  | (k, v) :: md' => if decide (k = key) then Some v else multidict_get key md'
  end.

(** What a view returns. A rendered template is kept as its name and the
    variables passed to it. *)
Inductive Response :=
  | Text (body : string)
  | Redirect (location : string)
  | Template (name : string) (context : list (string * list string)).

(** [url_for] over the three routes of the app. *)
Definition url_for (endpoint : string) : M string :=
  if decide (endpoint = "index") then ret "/"
  else if decide (endpoint = "uploaded_images") then ret "/results"
  else if decide (endpoint = "predictions") then ret "/predictions"
  else raise BuildError.

(** ** The flask session, a dict *)

(** [key in session] *)
Definition session_has (key : string) : M bool :=
  w <- get ;;
  match session w !! key with
  | Some _ => ret true
  | None => ret false
  end.

(** [session[key]] *)
Definition session_get (key : string) : M (list string) :=
  w <- get ;;
  match session w !! key with
  | Some v => ret v
  | None => raise (KeyError key)
  end.

(** [session[key] = v] *)
Definition session_set (key : string) (v : list string) : M unit :=
  modify (fun w => set_session (<[key := v]> (session w)) w).

(** [session.pop(key, None)] *)
Definition session_pop (key : string) : M unit :=
  modify (fun w => set_session (delete key (session w)) w).

(** [session[key].append(x)], through any alias of that list. *)
Definition session_append (key : string) (x : string) : M unit :=
  modify (fun w => set_session (alter (fun l => l ++ [x]) key (session w)) w).

(** ** External collaborators *)

Class External := {
  (** OpenCV. [cv2_imread] is [None] where [cv2.imread] returns [None]. *)
  cv_image : Type;
  cv2_imread : content -> option cv_image;
  cv2_cvtColor_gray : cv_image -> cv_image;
  detectMultiScale : cv_image -> list (Z * Z * Z * Z);
  (** keras. [load_img] is [image.load_img(_, target_size=(224, 224))]
      followed by [img_to_array] and [expand_dims]; [None] where it raises. *)
  tensor : Type;
  features : Type;
  load_img : content -> option tensor;
  resnet50_preprocess_input : tensor -> tensor;
  xception_preprocess_input : tensor -> tensor;
  resnet50_predict : tensor -> list Q;       (* ResNet50(weights="imagenet") *)
  xception_predict : tensor -> features;     (* Xception(include_top=False) *)
  head_predict : features -> list Q;         (* the trained 133-way head *)
  (** [utility_files/dog_names.pickle]: the breed-name table. *)
  dog_names : list string;
  (** The file system: the absolute path of the upload directory
      ([Path.cwd() / "uploads"], the working directory being the same at
      import and at every request), the files outside it, and the order in
      which [os.listdir] yields the names of the entries of a directory. *)
  uploads_dir : string;
  other_files : string -> option content;
  listdir : gmap string entry -> list string;
  (** flask_uploads' [UploadSet("photos", IMAGES)]: the extension check of
      [save], the name [save] picks when the wanted one is taken, [url],
      and all that [save] does with a name that is not plain (it splits a
      directory part off the name and writes there, it completes a name
      that ends with a dot, it may fail with an [OSError]): the result
      and the upload directory it leaves. *)
  file_allowed : string -> bool;
  resolve_conflict : gset string -> string -> string;
  photos_url : string -> string;
  save_other : directory -> FileStorage -> res string * directory
}.

(** What the operating system and flask_uploads guarantee: a listing names
    each entry of the directory once, and a resolved name is not taken. *)
Class ExternalSpec (E : External) : Prop := {
  listdir_NoDup : forall m, NoDup (listdir m);
  listdir_elem : forall m name, name ∈ listdir m <-> is_Some (m !! name);
  resolve_conflict_fresh : forall names name, resolve_conflict names name ∉ names
}.

Section App.

Context {E : External}.

Definition upload_path (name : string) : string := uploads_dir +:+ "/" +:+ name.

(** The bytes [cv2.imread] and [image.load_img] find at a path, [None]
    where there is no regular file to read. *)
Definition read_file (w : World) (path : string) : option content :=
  match strip_prefix (uploads_dir +:+ "/") path with
  | Some name => uploads w !! name
  | None => other_files path
  end.

(** The names [Path.iterdir] yields for the upload directory, and the
    statement that lists them: it raises when the directory is missing. *)
Definition iterdir (d : directory) : list string :=
  match d with
  | Missing => []
  | Present m => listdir m
  end.

Definition path_iterdir : M (list string) :=
  w <- get ;;
  match uploads w with
  | Missing => raise FileNotFoundError
  | Present _ => ret (iterdir (uploads w))
  end.

(** ** The pipeline *)

Definition clear_session : M unit :=
  modify (fun w => set_default_graph (S (default_graph w)) w).

Definition load_resnet50_model : M unit :=
  clear_session ;;;
  modify (fun w => set_resnet50_graph (Some (default_graph w)) w).

Definition load_xception_model : M unit :=
  clear_session ;;;
  modify (fun w => set_xception_graph (Some (default_graph w)) w).

(** [with g.as_default():] on a module global. *)
Definition as_default (name : string) (g : World -> option nat) : M nat :=
  w <- get ;;
  match g w with
  | Some n => ret n
  | None => raise (NameError name)
  end.

Definition face_detector (img_path : string) : M bool :=
  log_call (CallFaceDetector img_path) ;;;
  w <- get ;;
  let img := read_file w img_path ≫= cv2_imread in
  match img with
  | None => raise CvError
  | Some img =>
      let grayscale_img := cv2_cvtColor_gray img in
      let faces := detectMultiScale grayscale_img in
      ret (0 <? length faces)
  end.

Definition path_to_tensor (img_path : string) : M tensor :=
  w <- get ;;
  match read_file w img_path ≫= load_img with
  | None => raise ImageError
  | Some x => ret x
  end.

Definition dog_detector (img_path : string) : M bool :=
  log_call (CallDogDetector img_path) ;;;
  load_resnet50_model ;;;
  x <- path_to_tensor img_path ;;
  let img := resnet50_preprocess_input x in
  _ <- as_default "resnet50_graph" resnet50_graph ;;
  prediction <- np_argmax (resnet50_predict img) ;;
  ret ((prediction <=? 268) && (151 <=? prediction)).

Definition predict_breed (img_path : string) : M string :=
  log_call (CallPredictBreed img_path) ;;;
  load_xception_model ;;;
  x <- path_to_tensor img_path ;;
  let img := xception_preprocess_input x in
  let bottleneck_feature := xception_predict img in
  _ <- as_default "xception_graph" xception_graph ;;
  let predicted_vector := head_predict bottleneck_feature in
  i <- np_argmax predicted_vector ;;
  match dog_names !! i with
  | Some prediction => ret prediction
  | None => raise IndexError
  end.

Definition human_message (breed : string) : string :=
  "Looks like a human! If this were a dog, though, I would guess a " +:+ breed.
Definition dog_message (breed : string) : string :=
  "Looks like a dog! Perhaps a " +:+ breed.
Definition unknown_message : string :=
  "Well...I have now idea what this is. Apologies. Please try another image.".

Definition main_algorithm (img_path : string) : M string :=
  face <- face_detector img_path ;;
  if face then
    breed <- predict_breed img_path ;;
    ret (human_message breed)
  else
    dog <- dog_detector img_path ;;
    if dog then
      breed <- predict_breed img_path ;;
      ret (dog_message breed)
    else
      ret unknown_message.

(** ** The views *)

(** [Path.unlink]: removes a regular file, raises on a directory. *)
Definition unlink (name : string) : M unit :=
  w <- get ;;
  match entries (uploads w) !! name with
  | Some (RegularFile _) =>
      modify (fun w => set_uploads (remove_entry name (uploads w)) w)
  | Some SubDirectory => raise IsADirectoryError
  | None => raise FileNotFoundError
  end.

(** The name [photos.save] stores a file with a plain name under: the
    wanted one unless an entry has it. *)
Definition store_name (d : directory) (name : string) : string :=
  if decide (name ∈ dom (entries d))
  then resolve_conflict (dom (entries d)) name
  else name.

(** [photos.save(file, name=file.filename)]. For a plain name: refuse the
    file when the name fails the extension check, pick another name when
    the wanted one is taken, write the file into the upload directory and
    return the name it was stored under. For any other name: what
    flask_uploads does. *)
Definition photos_save (file : FileStorage) : M string :=
  w <- get ;;
  let name := filename file in
  if plain_name name then
    if file_allowed name then
      let basename := store_name (uploads w) name in
      modify (fun w => set_uploads (write_file basename (stream file) (uploads w)) w) ;;;
      ret basename
    else raise UploadNotAllowed
  else
    fun w => let '(r, d) := save_other (uploads w) file in (r, set_uploads d w).

(** The body of [for f in request.files]. The local [file_urls] is the very
    list the session holds under ["file_urls"], so [file_urls.append]
    changes the session's list. *)
Definition save_upload (request : Request) (f : string) : M unit :=
  match multidict_get f (files request) with
  | None => raise AttributeError
  | Some file =>
      filename <- photos_save file ;;
      session_append "file_urls" (photos_url filename)
  end.

Definition index (request : Request) : M Response :=
  names <- path_iterdir ;;
  for_each unlink names ;;;
  has <- session_has "file_urls" ;;
  (if has then session_set "file_urls" [] else ret tt) ;;;
  match method request with
  | POST =>
      has <- session_has "file_urls" ;;
      (if negb has then session_set "file_urls" [] else ret tt) ;;;
      _ <- session_get "file_urls" ;;
      for_each (save_upload request) (multidict_keys [] (files request)) ;;;
      file_urls <- session_get "file_urls" ;;
      session_set "file_urls" file_urls ;;;
      ret (Text "uploading...")
  | GET => ret (Template "index.html" [])
  end.

Definition uploaded_images : M Response :=
  has <- session_has "file_urls" ;;
  empty <- (if has then l <- session_get "file_urls" ;; ret (bool_decide (l = []))
            else ret false) ;;
  if negb has || empty then
    location <- url_for "index" ;;
    ret (Redirect location)
  else
    file_urls <- session_get "file_urls" ;;
    ret (Template "uploaded_images.html" [("file_urls", file_urls)]).

Definition predictions : M Response :=
  file_urls <- session_get "file_urls" ;;
  session_pop "file_urls" ;;;
  names <- path_iterdir ;;
  let img_paths := upload_path <$> names in
  predictions <- for_each main_algorithm img_paths ;;
  ret (Template "predictions.html"
         [("file_urls", file_urls); ("predictions", predictions)]).

(** ** What the functions compute

    The results of the pipeline as functions of the bytes of the image
    ([None] for a path with no file behind it), and the directory and URL
    list an upload leaves, with the state threading left out. The theorems
    below relate them to the code above. *)

Definition face_result (c : option content) : res bool :=
  match c ≫= cv2_imread with
  | None => Raise CvError
  | Some img => Ok (0 <? length (detectMultiScale (cv2_cvtColor_gray img)))
  end.

Definition resnet50_class (c : option content) : res nat :=
  match c ≫= load_img with
  | None => Raise ImageError
  | Some x =>
      match argmax (resnet50_predict (resnet50_preprocess_input x)) with
      | None => Raise ValueError
      | Some i => Ok i
      end
  end.

Definition breed_class (c : option content) : res nat :=
  match c ≫= load_img with
  | None => Raise ImageError
  | Some x =>
      match argmax (head_predict (xception_predict (xception_preprocess_input x))) with
      | None => Raise ValueError
      | Some i => Ok i
      end
  end.

Definition dog_result (c : option content) : res bool :=
  match resnet50_class c with
  | Ok i => Ok (bool_decide (151 ≤ i ≤ 268))
  | Raise e => Raise e
  end.

Definition breed_result (c : option content) : res string :=
  match breed_class c with
  | Ok i =>
      match dog_names !! i with
      | Some name => Ok name
      | None => Raise IndexError
      end
  | Raise e => Raise e
  end.

Definition with_breed (message : string -> string) (c : option content) : res string :=
  match breed_result c with
  | Ok breed => Ok (message breed)
  | Raise e => Raise e
  end.

Definition message_result (c : option content) : res string :=
  match face_result c with
  | Ok true => with_breed human_message c
  | Ok false =>
      match dog_result c with
      | Ok true => with_breed dog_message c
      | Ok false => Ok unknown_message
      | Raise e => Raise e
      end
  | Raise e => Raise e
  end.

(** The world each function leaves behind, whether it returns or raises:
    the call is logged and, for the two keras-backed ones, the default graph
    is replaced and the module global set. *)
Definition after_face (img_path : string) (w : World) : World :=
  set_calls (calls w ++ [CallFaceDetector img_path]) w.

Definition after_dog (img_path : string) (w : World) : World :=
  set_resnet50_graph (Some (S (default_graph w)))
    (set_default_graph (S (default_graph w))
       (set_calls (calls w ++ [CallDogDetector img_path]) w)).

Definition after_breed (img_path : string) (w : World) : World :=
  set_xception_graph (Some (S (default_graph w)))
    (set_default_graph (S (default_graph w))
       (set_calls (calls w ++ [CallPredictBreed img_path]) w)).

Definition after_main (img_path : string) (w : World) : World :=
  let c := read_file w img_path in
  match face_result c with
  | Ok true => after_breed img_path (after_face img_path w)
  | Ok false =>
      match dog_result c with
      | Ok true => after_breed img_path (after_dog img_path (after_face img_path w))
      | _ => after_dog img_path (after_face img_path w)
      end
  | Raise _ => after_face img_path w
  end.

(** The files of a request the upload loop visits: the first file of each
    form field, in the order the fields first appear. *)
Definition request_files (request : Request) : list FileStorage :=
  omap (fun f => multidict_get f (files request)) (multidict_keys [] (files request)).

(** Storing accepted files with plain names one after the other: the
    names they get and the directory that results. *)
Fixpoint store_all (d : directory) (fs : list FileStorage)
  : list string * directory :=
  match fs with
  | [] => ([], d)
  | file :: fs' =>
      let name := store_name d (filename file) in
      let '(names, d') := store_all (write_file name (stream file) d) fs' in
      (name :: names, d')
  end.


(** The reading of "predictions are order-matched to upload order" for an
    upload of two files with plain names, one per form field, into an
    existing directory of regular files: whatever the two files are, the
    predictions view returns the message of the first uploaded file, then
    that of the second. *)
Definition predictions_in_upload_order : Prop :=
  forall (f1 f2 : string) (file1 file2 : FileStorage) (w : World) (m1 m2 : string),
    flat (uploads w) ->
    f1 ≠ f2 ->
    plain_name (filename file1) = true ->
    plain_name (filename file2) = true ->
    file_allowed (filename file1) = true ->
    file_allowed (filename file2) = true ->
    message_result (Some (stream file1)) = Ok m1 ->
    message_result (Some (stream file2)) = Ok m2 ->
    exists file_urls,
      run predictions
          (exec (index (mkRequest POST [(f1, file1); (f2, file2)])) w)
      = Ok (Template "predictions.html"
              [("file_urls", file_urls); ("predictions", [m1; m2])]).

(** Storing files with plain names one after the other until
    [photos.save] refuses one: the names given so far, the directory that
    results, and whether every file was accepted. *)
Fixpoint store_accepted (d : directory) (fs : list FileStorage)
  : list string * directory * bool :=
  match fs with
  | [] => ([], d, true)
  | file :: fs' =>
      if file_allowed (filename file) then
        let name := store_name d (filename file) in
        let '(names, d', ok) := store_accepted (write_file name (stream file) d) fs' in
        (name :: names, d', ok)
      else ([], d, false)
  end.

(** The calls [main_algorithm] may make after the one to the face
    detector. *)
Definition later_calls (img_path : string) : list (list Call) :=
  [ [];
    [CallPredictBreed img_path];
    [CallDogDetector img_path];
    [CallDogDetector img_path; CallPredictBreed img_path] ].

End App.

(** ** A small concrete instance

    A three-byte "image" format makes every collaborator computable: the
    first byte says whether the cascade finds a face, the second is the
    class ResNet50 scores highest, the third the breed the head scores
    highest. It is used to run the model on explicit inputs. *)

Definition demo_decode (c : content) : option content :=
  match c with
  | [] => None
  | _ => Some c
  end.

Definition one_hot (i : nat) : list Q := replicate i 0%Q ++ [1%Q].

Definition demo_faces (img : content) : list (Z * Z * Z * Z) :=
  match img with
  | b :: _ => if Byte.eqb b "F"%byte then [(0, 0, 64, 64)%Z] else []
  | [] => []
  end.

Definition demo_resnet50 (t : content) : list Q :=
  match t with
  | _ :: c :: _ => one_hot (Byte.to_nat c)
  | _ => [1%Q]
  end.

Definition demo_head (f : content) : list Q :=
  match f with
  | _ :: _ :: b :: _ => one_hot (Byte.to_nat b)
  | _ => [1%Q]
  end.

Definition demo_allowed (name : string) : bool :=
  bool_decide (is_Some (strip_prefix (String.rev ".jpg") (String.rev name))).

(** flask_uploads on names that are not plain, as far as the top level of
    the upload directory shows it. A name with a directory part: the file
    goes below the first component of that part, which becomes a
    sub-directory; [..] leads out of the upload directory, an absolute
    path is not writable, a regular file cannot serve as a directory. A
    name with a trailing dot is completed by its extension. The empty
    name is refused; a name with a NUL character or one that is too long
    cannot be opened. *)
Fixpoint first_component (s : string) : string :=
  match s with
  | EmptyString => EmptyString
  | String a s' => if Ascii.eqb a "/"%char then EmptyString else String a (first_component s')
  end.

Fixpoint strip_dots (s : string) : string :=
  match s with
  | EmptyString => EmptyString
  | String a s' =>
      match strip_dots s' with
      | EmptyString => if Ascii.eqb a "."%char then EmptyString else String a EmptyString
      | rest => String a rest
      end
  end.

Fixpoint extension_from (s : string) (ext : option string) : string :=
  match s with
  | EmptyString => default EmptyString ext
  | String a s' =>
      if Ascii.eqb a "."%char then extension_from s' (Some EmptyString)
      else extension_from s' ((fun e => e +:+ String a EmptyString) <$> ext)
  end.

Definition demo_store (d : directory) (name : string) (c : content)
  : res string * directory :=
  let basename :=
    if decide (name ∈ dom (entries d)) then fresh (dom (entries d)) else name in
  (Ok basename, write_file basename c d).

Definition demo_save_other (d : directory) (file : FileStorage)
  : res string * directory :=
  let name := filename file in
  if has_slash name then
    let folder := first_component name in
    if negb (demo_allowed name) then (Raise UploadNotAllowed, d)
    else if String.eqb folder "" then (Raise OSError, d)
    else if String.eqb folder ".." then (Ok name, d)
    else if String.eqb folder "." then (Raise OSError, d)
    else
      match entries d !! folder with
      | Some (RegularFile _) => (Raise OSError, d)
      | _ => (Ok name, Present (<[folder := SubDirectory]> (entries d)))
      end
  else if ends_with_dot name then
    let basename := name +:+ extension_from (strip_dots name) None in
    if demo_allowed basename then demo_store d basename (stream file)
    else (Raise UploadNotAllowed, d)
  else if negb (demo_allowed name) then (Raise UploadNotAllowed, d)
  else if has_char "000"%char name then (Raise ValueError, d)
  else (Raise OSError, d).

Definition demo : External := {|
  cv_image := content;
  cv2_imread := demo_decode;
  cv2_cvtColor_gray := id;
  detectMultiScale := demo_faces;
  tensor := content;
  features := content;
  load_img := demo_decode;
  resnet50_preprocess_input := id;
  xception_preprocess_input := id;
  resnet50_predict := demo_resnet50;
  xception_predict := id;
  head_predict := demo_head;
  dog_names := ["Affenpinscher"; "Afghan_hound"; "Airedale_terrier"];
  uploads_dir := "/srv/app/uploads";
  other_files := fun _ => None;
  listdir := fun m => (map_to_list m).*1;
  file_allowed := demo_allowed;
  resolve_conflict := fun names _ => fresh names;
  photos_url := fun name => "/_uploads/photos/" +:+ name;
  save_other := demo_save_other
|}.

Definition face_jpg : content := ["F"; x00; x01]%byte.
Definition dog_jpg : content := [x00; xc8; x02]%byte.
Definition blank_jpg : content := [x00; x00; x00]%byte.

(** A world right after start-up: nothing uploaded, no session, globals unset. *)
Definition fresh_world : World := mkWorld ∅ ∅ 0 None None [].

Definition with_files (fs : list (string * content)) : World :=
  set_uploads (Present (RegularFile <$> list_to_map fs)) fresh_world.

Definition post (fs : list (string * FileStorage)) : Request := mkRequest POST fs.

Definition two_files : Request :=
  post [("file[0]", mkFile "a.jpg" face_jpg); ("file[1]", mkFile "b.jpg" blank_jpg)].
Definition two_files_swapped : Request :=
  post [("file[0]", mkFile "b.jpg" blank_jpg); ("file[1]", mkFile "a.jpg" face_jpg)].

(** * Theorems *)

(** ** numpy and paths *)

Lemma argmax_from_bound (v : list Q) (best_i i : nat) (best : Q) :
  best_i < i -> argmax_from best_i best i v < i + length v.
Proof.
  revert best_i best i. induction v as [|x v IH]; intros best_i best i Hlt; simpl.
  - lia.
  - destruct (Qle_bool x best).
    + specialize (IH best_i best (S i)). lia.
    + specialize (IH i x (S i)). lia.
Qed.

Lemma argmax_lt_length (v : list Q) (i : nat) : argmax v = Some i -> i < length v.
Proof.
  destruct v as [|x v]; simpl; [done|]. intros [= <-].
  pose proof (argmax_from_bound v 0 1 x). lia.
Qed.

Lemma argmax_is_Some (v : list Q) : v ≠ [] -> is_Some (argmax v).
Proof. destruct v; [done|]. simpl. eauto. Qed.

Lemma argmax_from_spec (v pre : list Q) (best_i : nat) (best : Q) :
  pre !! best_i = Some best ->
  (forall j y, pre !! j = Some y -> (y <= best)%Q) ->
  (forall j y, j < best_i -> pre !! j = Some y -> (y < best)%Q) ->
  is_argmax (pre ++ v) (argmax_from best_i best (length pre) v).
Proof.
  revert pre best_i best.
  induction v as [|a v IH]; intros pre best_i best Hbest Hmax Hfirst; simpl.
  - rewrite app_nil_r. by exists best.
  - assert (Hcons : pre ++ a :: v = (pre ++ [a]) ++ v) by by rewrite <- app_assoc.
    assert (Hlen : S (length pre) = length (pre ++ [a]))
      by (rewrite length_app; simpl; lia).
    rewrite Hcons, Hlen.
    destruct (Qle_bool a best) eqn:Hle.
    + apply Qle_bool_iff in Hle. apply IH.
      * by apply lookup_app_l_Some.
      * intros j y Hj. apply lookup_app_Some in Hj as [Hj|[_ Hj]]; [by eauto|].
        apply list_lookup_singleton_Some in Hj as [_ <-]. done.
      * intros j y Hlt Hj. apply lookup_lt_Some in Hbest.
        rewrite lookup_app_l in Hj by lia. by eauto.
    + assert (Hlt : (best < a)%Q).
      { apply Qnot_le_lt. intros H. apply Qle_bool_iff in H. congruence. }
      apply IH.
      * by rewrite list_lookup_middle.
      * intros j y Hj. apply lookup_app_Some in Hj as [Hj|[_ Hj]].
        -- apply Qlt_le_weak. eapply Qle_lt_trans; [|exact Hlt]. by eauto.
        -- apply list_lookup_singleton_Some in Hj as [_ <-]. apply Qle_refl.
      * intros j y Hj Hy. rewrite lookup_app_l in Hy by lia.
        eapply Qle_lt_trans; [|exact Hlt]. by eauto.
Qed.

(** [argmax] returns what [np.argmax] is documented to return. *)
Lemma argmax_spec (v : list Q) (i : nat) : argmax v = Some i -> is_argmax v i.
Proof.
  destruct v as [|x v]; simpl; [done|]. intros [= <-].
  apply (argmax_from_spec v [x] 0 x).
  - done.
  - intros [|j] y; simpl; [|done]. intros [= <-]. apply Qle_refl.
  - intros j y Hj. lia.
Qed.

Lemma strip_prefix_app (pre s : string) : strip_prefix pre (pre +:+ s) = Some s.
Proof.
  induction pre as [|a pre IH]; simpl; [done|].
  by rewrite Ascii.eqb_refl.
Qed.

Lemma string_app_assoc (s1 s2 s3 : string) : (s1 +:+ s2) +:+ s3 = s1 +:+ (s2 +:+ s3).
Proof.
  induction s1 as [|a s1 IH]; [done|].
  change (String a ((s1 +:+ s2) +:+ s3) = String a (s1 +:+ (s2 +:+ s3))).
  by f_equal.
Qed.

Lemma leb_range (i : nat) : (i <=? 268) && (151 <=? i) = bool_decide (151 ≤ i ≤ 268).
Proof.
  destruct (Nat.leb_spec i 268); destruct (Nat.leb_spec 151 i); simpl; symmetry.
  - apply bool_decide_eq_true. lia.
  - apply bool_decide_eq_false. lia.
  - apply bool_decide_eq_false. lia.
  - apply bool_decide_eq_false. lia.
Qed.

Section PipelineFacts.

Context {E : External}.

Lemma read_file_upload (w : World) (name : string) :
  read_file w (upload_path name) = uploads w !! name.
Proof.
  unfold read_file, upload_path.
  by rewrite <- string_app_assoc, strip_prefix_app.
Qed.

(** ** The pipeline, function by function *)

Lemma face_detector_eq (img_path : string) (w : World) :
  face_detector img_path w = (face_result (read_file w img_path), after_face img_path w).
Proof.
  unfold face_detector, face_result, bind, log_call, modify, get. simpl.
  change (read_file (set_calls _ w) img_path) with (read_file w img_path).
  by destruct (read_file w img_path ≫= cv2_imread).
Qed.

Lemma dog_detector_eq (img_path : string) (w : World) :
  dog_detector img_path w = (dog_result (read_file w img_path), after_dog img_path w).
Proof.
  unfold dog_detector, dog_result, resnet50_class, path_to_tensor, load_resnet50_model,
    clear_session, as_default, np_argmax, bind, log_call, modify, get. simpl.
  match goal with |- context [read_file ?w' img_path] =>
    change (read_file w' img_path) with (read_file w img_path) end.
  destruct (read_file w img_path ≫= load_img) as [x|]; simpl; [|done].
  destruct (argmax _) as [i|]; simpl; [|done].
  unfold ret. by rewrite leb_range.
Qed.

Lemma predict_breed_eq (img_path : string) (w : World) :
  predict_breed img_path w = (breed_result (read_file w img_path), after_breed img_path w).
Proof.
  unfold predict_breed, breed_result, breed_class, path_to_tensor, load_xception_model,
    clear_session, as_default, np_argmax, bind, log_call, modify, get. simpl.
  match goal with |- context [read_file ?w' img_path] =>
    change (read_file w' img_path) with (read_file w img_path) end.
  destruct (read_file w img_path ≫= load_img) as [x|]; simpl; [|done].
  destruct (argmax _) as [i|]; simpl; [|done].
  by destruct (dog_names !! i).
Qed.

Lemma main_algorithm_eq (img_path : string) (w : World) :
  main_algorithm img_path w = (message_result (read_file w img_path), after_main img_path w).
Proof.
  unfold main_algorithm, message_result, after_main, with_breed, bind.
  rewrite face_detector_eq.
  destruct (face_result (read_file w img_path)) as [[|]|e]; [| |done].
  - rewrite predict_breed_eq.
    change (read_file (after_face img_path w) img_path) with (read_file w img_path).
    by destruct (breed_result _).
  - rewrite dog_detector_eq.
    change (read_file (after_face img_path w) img_path) with (read_file w img_path).
    destruct (dog_result (read_file w img_path)) as [[|]|e]; [| done | done].
    rewrite predict_breed_eq.
    change (read_file (after_dog img_path (after_face img_path w)) img_path)
      with (read_file w img_path).
    by destruct (breed_result _).
Qed.

Lemma breed_result_in_table (c : option content) (breed : string) :
  breed_result c = Ok breed -> breed ∈ dog_names.
Proof.
  unfold breed_result. destruct (breed_class c) as [i|]; [|done].
  destruct (dog_names !! i) as [name|] eqn:Hi; [|done].
  intros [= <-]. by eapply list_elem_of_lookup_2.
Qed.

End PipelineFacts.

Section PipelineClaims.

Context {E : External}.

Lemma face_detector_inv (img_path : string) (w w1 : World) (b : bool) :
  face_detector img_path w = (Ok b, w1) ->
  face_result (read_file w img_path) = Ok b /\ w1 = after_face img_path w.
Proof. rewrite face_detector_eq. by intros [= -> ->]. Qed.

Lemma dog_detector_inv (img_path : string) (w w1 : World) (b : bool) :
  dog_detector img_path w = (Ok b, w1) ->
  dog_result (read_file w img_path) = Ok b /\ w1 = after_dog img_path w.
Proof. rewrite dog_detector_eq. by intros [= -> ->]. Qed.

Lemma predict_breed_inv (img_path : string) (w w1 : World) (breed : string) :
  predict_breed img_path w = (Ok breed, w1) ->
  breed_result (read_file w img_path) = Ok breed /\ w1 = after_breed img_path w.
Proof. rewrite predict_breed_eq. by intros [= -> ->]. Qed.

Lemma main_algorithm_messages (img_path : string) (w : World) (message : string) :
  run (main_algorithm img_path) w = Ok message ->
  message = unknown_message \/
  exists breed, breed ∈ dog_names /\
    (message = human_message breed \/ message = dog_message breed).
Proof.
  unfold run. rewrite main_algorithm_eq. simpl.
  unfold message_result, with_breed.
  destruct (face_result _) as [[|]|e]; [| |done].
  - destruct (breed_result _) as [breed|] eqn:Hb; [|done]. intros [= <-].
    right. exists breed. eauto using breed_result_in_table.
  - destruct (dog_result _) as [[|]|e]; [| |done].
    + destruct (breed_result _) as [breed|] eqn:Hb; [|done]. intros [= <-].
      right. exists breed. eauto using breed_result_in_table.
    + intros [= <-]. by left.
Qed.

(** C1. [main_algorithm] is a flat three-way decision. When the face
    detector returns true, the breed predictor is called and the result is
    the message "Looks like a human! ..." ending in the predicted breed, a
    name of the breed table. Otherwise, when the dog detector returns true,
    the breed predictor is called and the result is "Looks like a dog!
    Perhaps a" followed by the predicted breed. Otherwise the result is the
    fixed third message. A message is never anything else. *)
Theorem main_algorithm_three_way (img_path : string) (w : World) :
  (forall w1 breed w2,
     face_detector img_path w = (Ok true, w1) ->
     predict_breed img_path w1 = (Ok breed, w2) ->
     main_algorithm img_path w = (Ok (human_message breed), w2) /\
     human_message breed =
       "Looks like a " +:+ "human" +:+
       "! If this were a dog, though, I would guess a " +:+ breed /\
     breed ∈ dog_names /\
     calls w2 = calls w ++ [CallFaceDetector img_path; CallPredictBreed img_path]) /\
  (forall w1 w2 breed w3,
     face_detector img_path w = (Ok false, w1) ->
     dog_detector img_path w1 = (Ok true, w2) ->
     predict_breed img_path w2 = (Ok breed, w3) ->
     main_algorithm img_path w = (Ok (dog_message breed), w3) /\
     dog_message breed = "Looks like a dog! Perhaps a " +:+ breed /\
     breed ∈ dog_names /\
     calls w3 = calls w ++ [CallFaceDetector img_path; CallDogDetector img_path;
                            CallPredictBreed img_path]) /\
  (forall w1 w2,
     face_detector img_path w = (Ok false, w1) ->
     dog_detector img_path w1 = (Ok false, w2) ->
     main_algorithm img_path w = (Ok unknown_message, w2)) /\
  (forall message,
     run (main_algorithm img_path) w = Ok message ->
     message = unknown_message \/
     exists breed, breed ∈ dog_names /\
       (message = human_message breed \/ message = dog_message breed)).
Proof.
  split; [|split; [|split]].
  - intros w1 breed w2 Hface Hbreed.
    apply face_detector_inv in Hface as [Hface ->].
    apply predict_breed_inv in Hbreed as [Hbreed ->].
    change (read_file (after_face img_path w) img_path)
      with (read_file w img_path) in Hbreed.
    split; [|split; [done|split]].
    + rewrite main_algorithm_eq. unfold message_result, after_main, with_breed.
      by rewrite Hface, Hbreed.
    + by eapply breed_result_in_table.
    + simpl. by rewrite <- app_assoc.
  - intros w1 w2 breed w3 Hface Hdog Hbreed.
    apply face_detector_inv in Hface as [Hface ->].
    apply dog_detector_inv in Hdog as [Hdog ->].
    apply predict_breed_inv in Hbreed as [Hbreed ->].
    change (read_file (after_face img_path w) img_path)
      with (read_file w img_path) in Hdog.
    change (read_file (after_dog img_path (after_face img_path w)) img_path)
      with (read_file w img_path) in Hbreed.
    split; [|split; [done|split]].
    + rewrite main_algorithm_eq. unfold message_result, after_main, with_breed.
      by rewrite Hface, Hdog, Hbreed.
    + by eapply breed_result_in_table.
    + simpl. by rewrite <- !app_assoc.
  - intros w1 w2 Hface Hdog.
    apply face_detector_inv in Hface as [Hface ->].
    apply dog_detector_inv in Hdog as [Hdog ->].
    change (read_file (after_face img_path w) img_path)
      with (read_file w img_path) in Hdog.
    rewrite main_algorithm_eq. unfold message_result, after_main.
    by rewrite Hface, Hdog.
  - apply main_algorithm_messages.
Qed.

(** C2. When the face detector returns false and the dog detector returns
    false, [main_algorithm] returns the fixed third message (in the source:
    "Well...I have now idea what this is. Apologies. Please try another
    image.") and [predict_breed] is not called: the only calls made are to
    the two detectors, and the global set by loading the breed model is
    untouched. *)
Theorem main_algorithm_unknown_without_prediction
    (img_path : string) (w w1 w2 : World) :
  face_detector img_path w = (Ok false, w1) ->
  dog_detector img_path w1 = (Ok false, w2) ->
  main_algorithm img_path w = (Ok unknown_message, w2) /\
  unknown_message =
    "Well...I have now idea what this is. Apologies. Please try another image." /\
  calls w2 = calls w ++ [CallFaceDetector img_path; CallDogDetector img_path] /\
  (forall q, CallPredictBreed q ∉ [CallFaceDetector img_path; CallDogDetector img_path]) /\
  xception_graph w2 = xception_graph w.
Proof.
  intros Hface Hdog.
  apply face_detector_inv in Hface as [Hface ->].
  apply dog_detector_inv in Hdog as [Hdog ->].
  change (read_file (after_face img_path w) img_path)
    with (read_file w img_path) in Hdog.
  split; [|split; [done|split; [|split; [|done]]]].
  - rewrite main_algorithm_eq. unfold message_result, after_main.
    by rewrite Hface, Hdog.
  - simpl. by rewrite <- app_assoc.
  - intros q Hq. repeat (apply elem_of_cons in Hq as [Hq|Hq]; [done|]).
    by apply elem_of_nil in Hq.
Qed.

(** C3. [dog_detector] returns true exactly when the argmax of the
    classifier's output lies in the inclusive range 151..268: with the
    image loaded and the argmax being [i] it returns whether
    [151 <= i <= 268], and every value it returns arises this way. *)
Theorem dog_detector_index_range (img_path : string) (w : World) :
  (forall x i,
     read_file w img_path ≫= load_img = Some x ->
     argmax (resnet50_predict (resnet50_preprocess_input x)) = Some i ->
     run (dog_detector img_path) w = Ok (bool_decide (151 ≤ i ≤ 268))) /\
  (forall b,
     run (dog_detector img_path) w = Ok b ->
     exists x i,
       read_file w img_path ≫= load_img = Some x /\
       is_argmax (resnet50_predict (resnet50_preprocess_input x)) i /\
       (b = true <-> 151 ≤ i ≤ 268)).
Proof.
  unfold run. rewrite dog_detector_eq. simpl. unfold dog_result, resnet50_class.
  split.
  - intros x i -> ->. done.
  - intros b. destruct (read_file w img_path ≫= load_img) as [x|]; [|done].
    destruct (argmax _) as [i|] eqn:Hi; [|done]. intros [= <-].
    exists x, i. split; [done|]. split; [by apply argmax_spec|].
    apply bool_decide_eq_true.
Qed.

(** C5. [predict_breed] returns the entry of the breed-name table at the
    argmax of the head's output; so what it returns is an element of the
    table (and it does return when the image loads and the table has a
    name for every output of the head), and it returns the same for the
    same file, whatever else the world holds, also when called again right
    away. *)
Theorem predict_breed_table_lookup (img_path : string) (w : World) :
  (forall x i,
     read_file w img_path ≫= load_img = Some x ->
     argmax (head_predict (xception_predict (xception_preprocess_input x))) = Some i ->
     run (predict_breed img_path) w =
       match dog_names !! i with
       | Some name => Ok name
       | None => Raise IndexError
       end) /\
  (forall breed,
     run (predict_breed img_path) w = Ok breed ->
     breed ∈ dog_names /\
     exists x i,
       read_file w img_path ≫= load_img = Some x /\
       is_argmax (head_predict (xception_predict (xception_preprocess_input x))) i /\
       dog_names !! i = Some breed) /\
  (forall x,
     read_file w img_path ≫= load_img = Some x ->
     head_predict (xception_predict (xception_preprocess_input x)) ≠ [] ->
     length (head_predict (xception_predict (xception_preprocess_input x)))
       <= length dog_names ->
     exists breed, run (predict_breed img_path) w = Ok breed /\ breed ∈ dog_names) /\
  (forall w',
     read_file w' img_path = read_file w img_path ->
     run (predict_breed img_path) w' = run (predict_breed img_path) w) /\
  run (predict_breed img_path) (exec (predict_breed img_path) w) =
    run (predict_breed img_path) w.
Proof.
  unfold run, exec. rewrite !predict_breed_eq. simpl.
  split; [|split; [|split; [|split]]].
  - intros x i Hx Hi. unfold breed_result, breed_class. by rewrite Hx, Hi.
  - intros breed Hb. split; [by eapply breed_result_in_table|].
    unfold breed_result, breed_class in Hb.
    destruct (read_file w img_path ≫= load_img) as [x|]; [|done].
    destruct (argmax _) as [i|] eqn:Hi; [|done].
    destruct (dog_names !! i) as [name|] eqn:Hn; [|done].
    injection Hb as <-. exists x, i. eauto using argmax_spec.
  - intros x Hx Hne Hlen.
    destruct (argmax_is_Some _ Hne) as [i Hi].
    destruct (lookup_lt_is_Some_2 dog_names i) as [breed Hbreed].
    { apply argmax_lt_length in Hi. lia. }
    exists breed. split; [|by eapply list_elem_of_lookup_2].
    unfold breed_result, breed_class. by rewrite Hx, Hi, Hbreed.
  - intros w' Hw'. rewrite predict_breed_eq. simpl. by rewrite Hw'.
  - done.
Qed.

End PipelineClaims.

(** The three branches of C1 on a face, a dog and a blank image. *)
Lemma main_algorithm_three_way_witness :
  run (@main_algorithm demo "/srv/app/uploads/x.jpg") (with_files [("x.jpg", face_jpg)])
    = Ok (human_message "Afghan_hound") /\
  run (@main_algorithm demo "/srv/app/uploads/x.jpg") (with_files [("x.jpg", dog_jpg)])
    = Ok (dog_message "Airedale_terrier") /\
  run (@main_algorithm demo "/srv/app/uploads/x.jpg") (with_files [("x.jpg", blank_jpg)])
    = Ok unknown_message.
Proof.
  split; [|split].
  - pose (p := "/srv/app/uploads/x.jpg").
    pose (w := with_files [("x.jpg", face_jpg)]).
    destruct (@main_algorithm_three_way demo p w) as (H & _).
    destruct (H (after_face p w) "Afghan_hound" (after_breed p (after_face p w)))
      as (Hm & _); [vm_compute; reflexivity | vm_compute; reflexivity |].
    unfold run. fold p w. rewrite Hm. reflexivity.
  - pose (p := "/srv/app/uploads/x.jpg").
    pose (w := with_files [("x.jpg", dog_jpg)]).
    destruct (@main_algorithm_three_way demo p w) as (_ & H & _).
    destruct (H (after_face p w) (after_dog p (after_face p w)) "Airedale_terrier"
                (after_breed p (after_dog p (after_face p w))))
      as (Hm & _); [vm_compute; reflexivity .. |].
    unfold run. fold p w. rewrite Hm. reflexivity.
  - pose (p := "/srv/app/uploads/x.jpg").
    pose (w := with_files [("x.jpg", blank_jpg)]).
    destruct (@main_algorithm_three_way demo p w) as (_ & _ & H & _).
    unfold run. fold p w.
    rewrite (H (after_face p w) (after_dog p (after_face p w)));
      [reflexivity | vm_compute; reflexivity ..].
Defined.

(** C2 on a blank image: the two detectors are the only calls. *)
Lemma main_algorithm_unknown_without_prediction_witness :
  calls (exec (@main_algorithm demo "/srv/app/uploads/x.jpg")
           (with_files [("x.jpg", blank_jpg)]))
    = [CallFaceDetector "/srv/app/uploads/x.jpg"; CallDogDetector "/srv/app/uploads/x.jpg"].
Proof.
  pose (p := "/srv/app/uploads/x.jpg").
  pose (w := with_files [("x.jpg", blank_jpg)]).
  destruct (@main_algorithm_unknown_without_prediction demo p w
              (after_face p w) (after_dog p (after_face p w)))
    as (Hm & _ & Hc & _); [vm_compute; reflexivity ..|].
  unfold exec. fold p w. rewrite Hm. exact Hc.
Defined.

(** C3 at both ends of the range and just outside it. *)
Lemma dog_detector_index_range_witness :
  run (@dog_detector demo "/srv/app/uploads/x.jpg")
      (with_files [("x.jpg", [x00; x97; x00]%byte)]) = Ok true /\
  run (@dog_detector demo "/srv/app/uploads/x.jpg")
      (with_files [("x.jpg", [x00; x96; x00]%byte)]) = Ok false.
Proof.
  split.
  - destruct (@dog_detector_index_range demo "/srv/app/uploads/x.jpg"
                (with_files [("x.jpg", [x00; x97; x00]%byte)])) as [H _].
    rewrite (H [x00; x97; x00]%byte 151); [reflexivity | vm_compute; reflexivity ..].
  - destruct (@dog_detector_index_range demo "/srv/app/uploads/x.jpg"
                (with_files [("x.jpg", [x00; x96; x00]%byte)])) as [H _].
    rewrite (H [x00; x96; x00]%byte 150); [reflexivity | vm_compute; reflexivity ..].
Defined.

(** C5 on an image whose best breed class is 1, and on one whose best
    class is past the end of the three-name table. *)
Lemma predict_breed_table_lookup_witness :
  run (@predict_breed demo "/srv/app/uploads/x.jpg") (with_files [("x.jpg", face_jpg)])
    = Ok "Afghan_hound" /\
  run (@predict_breed demo "/srv/app/uploads/x.jpg")
      (with_files [("x.jpg", [x00; x00; x03]%byte)]) = Raise IndexError.
Proof.
  split.
  - destruct (@predict_breed_table_lookup demo "/srv/app/uploads/x.jpg"
                (with_files [("x.jpg", face_jpg)])) as [H _].
    rewrite (H face_jpg 1); [reflexivity | vm_compute; reflexivity ..].
  - destruct (@predict_breed_table_lookup demo "/srv/app/uploads/x.jpg"
                (with_files [("x.jpg", [x00; x00; x03]%byte)])) as [H _].
    rewrite (H [x00; x00; x03]%byte 3); [reflexivity | vm_compute; reflexivity ..].
Defined.

(** ** Stepping through computations *)

Lemma bind_ok {A B} (m : M A) (k : A -> M B) (w w1 : World) (a : A) :
  m w = (Ok a, w1) -> bind m k w = k a w1.
Proof. unfold bind. by intros ->. Qed.

Lemma bind_raise {A B} (m : M A) (k : A -> M B) (w w1 : World) (e : exn) :
  m w = (Raise e, w1) -> bind m k w = (Raise e, w1).
Proof. unfold bind. by intros ->. Qed.

Lemma set_uploads_id (w : World) : set_uploads (uploads w) w = w.
Proof. by destruct w. Qed.

Lemma set_session_id (w : World) : set_session (session w) w = w.
Proof. by destruct w. Qed.

Lemma alter_lookup_insert {V} (f : V -> V) (m : gmap string V) (k : string) (v : V) :
  m !! k = Some v -> alter f k m = <[k := f v]> m.
Proof.
  intros Hk. apply map_eq. intros j.
  destruct (decide (k = j)) as [->|Hne].
  - by rewrite lookup_alter_eq, lookup_insert_eq, Hk.
  - by rewrite lookup_alter_ne, lookup_insert_ne.
Qed.

Lemma bind_ext {A B} (m : M A) (k1 k2 : A -> M B) (w : World) :
  (forall a w', k1 a w' = k2 a w') -> bind m k1 w = bind m k2 w.
Proof. intros Hk. unfold bind. by destruct (m w) as [[a|e] w']. Qed.

Lemma for_each_pointwise {A B} (body1 body2 : A -> M B) (xs : list A) (w : World) :
  (forall x w', body1 x w' = body2 x w') ->
  for_each body1 xs w = for_each body2 xs w.
Proof.
  intros Hbody. revert w. induction xs as [|x xs IH]; intros w; [done|].
  cbn [for_each]. unfold bind. rewrite Hbody.
  destruct (body2 x w) as [[y|e] w1]; [|done]. by rewrite IH.
Qed.

(** ** Lists of results *)

Lemma collect_raise {A} (rs : list (res A)) (e : exn) :
  Raise e ∈ rs -> exists e', collect rs = Raise e'.
Proof.
  induction rs as [|[a|e0] rs IH]; simpl.
  - by intros ?%elem_of_nil.
  - intros [?|Hin]%elem_of_cons; [done|].
    destruct (IH Hin) as [e' ->]. by eauto.
  - by eauto.
Qed.

Lemma collect_length {A} (rs : list (res A)) (l : list A) :
  collect rs = Ok l -> length l = length rs.
Proof.
  revert l. induction rs as [|[a|e] rs IH]; intros l; simpl; [by intros [= <-]| |done].
  destruct (collect rs) as [l'|]; [|done]. intros [= <-]. simpl. by rewrite (IH l').
Qed.



(** ** The MultiDict of uploaded files *)


Lemma multidict_keys_elem {V} (seen : list string) (md : list (string * V)) (k : string) :
  k ∈ multidict_keys seen md -> exists v, (k, v) ∈ md.
Proof.
  revert seen. induction md as [|[k' v'] md IH]; intros seen; simpl.
  - by intros ?%elem_of_nil.
  - destruct (decide (k' ∈ seen)).
    + intros [v Hv]%IH. exists v. apply elem_of_cons. by right.
    + intros [->|[v Hv]%IH]%elem_of_cons.
      * exists v'. apply elem_of_cons. by left.
      * exists v. apply elem_of_cons. by right.
Qed.

Lemma multidict_get_is_Some {V} (key : string) (md : list (string * V)) (v : V) :
  (key, v) ∈ md -> is_Some (multidict_get key md).
Proof.
  induction md as [|[k v'] md IH]; simpl.
  - by intros ?%elem_of_nil.
  - destruct (decide (k = key)); [by eauto|].
    intros [[= <- <-]|H]%elem_of_cons; [done|]. by apply IH.
Qed.

Lemma multidict_keys_get {V} (md : list (string * V)) :
  Forall (fun k => is_Some (multidict_get k md)) (multidict_keys [] md).
Proof.
  apply Forall_forall. intros k [v Hv]%multidict_keys_elem.
  by eapply multidict_get_is_Some.
Qed.

Lemma multidict_keys_distinct {V} (seen : list string) (md : list (string * V)) :
  NoDup md.*1 -> (forall k, k ∈ md.*1 -> k ∉ seen) ->
  multidict_keys seen md = md.*1.
Proof.
  revert seen. induction md as [|[k v] md IH]; intros seen Hnd Hseen; simpl; [done|].
  apply NoDup_cons in Hnd as [Hk Hnd]. simpl in Hk.
  rewrite decide_False by (apply Hseen, elem_of_cons; by left).
  f_equal. apply IH; [done|].
  intros k' Hk' [->|Hs]%elem_of_cons; [done|].
  apply (Hseen k'); [|done]. apply elem_of_cons. by right.
Qed.

Lemma multidict_get_other {V} (md : list (string * V)) (k : string) (v : V)
    (ks : list string) :
  k ∉ ks ->
  omap (fun k' => multidict_get k' ((k, v) :: md)) ks
    = omap (fun k' => multidict_get k' md) ks.
Proof.
  induction ks as [|k' ks IH]; intros Hk; [done|].
  cbn [omap list_omap].
  rewrite IH by (intros Hin; apply Hk, elem_of_cons; by right).
  cbn [multidict_get].
  by rewrite decide_False by (intros ->; apply Hk, elem_of_cons; by left).
Qed.

Lemma multidict_get_distinct {V} (md : list (string * V)) :
  NoDup md.*1 -> omap (fun k => multidict_get k md) md.*1 = md.*2.
Proof.
  induction md as [|[k v] md IH]; intros Hnd; [done|].
  rewrite !fmap_cons in Hnd |- *. cbn [fst snd] in Hnd |- *.
  apply NoDup_cons in Hnd as [Hk Hnd].
  cbn [omap list_omap]. rewrite multidict_get_other by done.
  cbn [multidict_get]. rewrite decide_True by done.
  change (((k, v) :: md).*2) with (v :: md.*2).
  f_equal. by apply IH.
Qed.

(** With one file per form field, as Dropzone sends them, the loop visits
    every file of the request, in order. *)
Lemma request_files_distinct (request : Request) :
  NoDup (files request).*1 -> request_files request = (files request).*2.
Proof.
  intros Hnd. unfold request_files.
  rewrite multidict_keys_distinct; [by apply multidict_get_distinct | done |].
  by intros k _ ?%elem_of_nil.
Qed.

Lemma omap_ext_all {A B} (f g : A -> option B) (l : list A) :
  (forall x, f x = g x) -> omap f l = omap g l.
Proof.
  intros Hfg. induction l as [|x l IH]; [done|].
  cbn [omap list_omap]. by rewrite Hfg, IH.
Qed.

Lemma multidict_keys_skip {V} (seen : list string) (md1 md2 : list (string * V))
    (f : string) (v : V) :
  f ∈ seen \/ f ∈ md1.*1 ->
  multidict_keys seen (md1 ++ (f, v) :: md2) = multidict_keys seen (md1 ++ md2).
Proof.
  revert seen. induction md1 as [|[k0 v0] md1 IH]; intros seen Hf; simpl.
  - destruct Hf as [Hf|Hf%elem_of_nil]; [|done]. by rewrite decide_True.
  - destruct (decide (k0 ∈ seen)) as [Hin|Hout].
    + apply IH. destruct Hf as [?|[->|?]%elem_of_cons]; by eauto.
    + f_equal. apply IH. rewrite elem_of_cons.
      destruct Hf as [?|[->|?]%elem_of_cons]; by eauto.
Qed.

Lemma multidict_get_skip {V} (md1 md2 : list (string * V)) (f k : string) (v : V) :
  f ∈ md1.*1 \/ f ≠ k ->
  multidict_get k (md1 ++ (f, v) :: md2) = multidict_get k (md1 ++ md2).
Proof.
  induction md1 as [|[k0 v0] md1 IH]; intros Hf; simpl.
  - destruct Hf as [Hf%elem_of_nil|Hf]; [done|]. by rewrite decide_False.
  - destruct (decide (k0 = k)) as [->|Hne]; [done|].
    apply IH. destruct Hf as [[->|?]%elem_of_cons|?]; by eauto.
Qed.

(** ** The upload directory *)

Lemma directory_lookup_entries (d : directory) (name : string) :
  d !! name = entries d !! name ≫= regular.
Proof. done. Qed.

Lemma directory_lookup_Some (d : directory) (name : string) (c : content) :
  d !! name = Some c <-> entries d !! name = Some (RegularFile c).
Proof.
  rewrite directory_lookup_entries.
  destruct (entries d !! name) as [[c'|]|]; simpl; split; congruence.
Qed.




Lemma flat_empty : flat ∅.
Proof. apply map_Forall_empty. Qed.

Lemma flat_write_file (d : directory) (name : string) (c : content) :
  flat d -> flat (write_file name c d).
Proof.
  destruct d as [|m]; [done|]. simpl. intros Hflat.
  apply map_Forall_insert_2; [by eexists | done].
Qed.

Lemma flat_regular (m : gmap string entry) (name : string) (e : entry) :
  flat (Present m) -> m !! name = Some e -> exists c, e = RegularFile c.
Proof.
  intros Hflat He. destruct (Hflat name e He) as [c Hc].
  destruct e; [by eauto | done].
Qed.

Lemma flat_files (files : gmap string content) : flat (Present (RegularFile <$> files)).
Proof.
  intros name e. rewrite lookup_fmap.
  destruct (files !! name) as [c|]; simpl; [|done]. intros [= <-]. by eexists.
Qed.

Section WebFacts.

Context {E : External}.

(** ** Emptying the upload directory *)

Lemma path_iterdir_present (w : World) (m : gmap string entry) :
  uploads w = Present m -> path_iterdir w = (Ok (listdir m), w).
Proof. intros Hm. unfold path_iterdir, bind, get. by rewrite Hm. Qed.

Lemma path_iterdir_missing (w : World) :
  uploads w = Missing -> path_iterdir w = (Raise FileNotFoundError, w).
Proof. intros Hm. unfold path_iterdir, bind, get. by rewrite Hm. Qed.

Lemma unlink_file (w : World) (m : gmap string entry) (name : string) (c : content) :
  uploads w = Present m -> m !! name = Some (RegularFile c) ->
  unlink name w = (Ok tt, set_uploads (Present (delete name m)) w).
Proof.
  intros Hm Hname. unfold unlink, bind, get, modify. rewrite Hm. simpl.
  rewrite Hname. by rewrite Hm.
Qed.

Lemma unlink_directory (w : World) (m : gmap string entry) (name : string) :
  uploads w = Present m -> m !! name = Some SubDirectory ->
  unlink name w = (Raise IsADirectoryError, w).
Proof.
  intros Hm Hname. unfold unlink, bind, get. by rewrite Hm; simpl; rewrite Hname.
Qed.

Lemma for_each_unlink_files (l : list string) (w : World) (m : gmap string entry) :
  NoDup l ->
  uploads w = Present m ->
  (forall name, name ∈ l -> exists c, m !! name = Some (RegularFile c)) ->
  exists us m',
    for_each unlink l w = (Ok us, set_uploads (Present m') w) /\
    forall name, m' !! name = if decide (name ∈ l) then None else m !! name.
Proof.
  revert w m. induction l as [|x l IH]; intros w m Hnd Hm Hin; simpl.
  - exists [], m. split; [by rewrite <- Hm, set_uploads_id|].
    intros name. destruct (decide (name ∈ [])) as [H%elem_of_nil|]; done.
  - apply NoDup_cons in Hnd as [Hx Hnd].
    destruct (Hin x) as [c Hc]; [apply elem_of_cons; by left|].
    destruct (IH (set_uploads (Present (delete x m)) w) (delete x m) Hnd eq_refl)
      as (us & m' & Hrun & Hm').
    { intros name Hname. rewrite lookup_delete_ne by (intros ->; done).
      apply Hin. apply elem_of_cons. by right. }
    exists (tt :: us), m'. split.
    + erewrite bind_ok; [|by eapply unlink_file].
      erewrite bind_ok; [|exact Hrun]. done.
    + intros name. rewrite Hm'.
      destruct (decide (name ∈ l)) as [Hl|Hl].
      * rewrite decide_True; [done|]. apply elem_of_cons. by right.
      * destruct (decide (name = x)) as [->|Hne].
        -- rewrite decide_True by (apply elem_of_cons; by left).
           by rewrite lookup_delete_eq.
        -- rewrite decide_False by (intros [?|?]%elem_of_cons; done).
           by rewrite lookup_delete_ne.
Qed.

Lemma for_each_unlink_directory (l : list string) (w : World) (m : gmap string entry) :
  NoDup l ->
  uploads w = Present m ->
  (forall name, name ∈ l -> is_Some (m !! name)) ->
  Exists (fun name => m !! name = Some SubDirectory) l ->
  exists m',
    for_each unlink l w = (Raise IsADirectoryError, set_uploads (Present m') w) /\
    forall name, m !! name = Some SubDirectory -> m' !! name = Some SubDirectory.
Proof.
  revert w m. induction l as [|x l IH]; intros w m Hnd Hm Hin Hdir; simpl.
  - by apply Exists_nil in Hdir.
  - apply NoDup_cons in Hnd as [Hx Hnd].
    destruct (Hin x) as [[c|] Hc]; [apply elem_of_cons; by left| |].
    + apply Exists_cons in Hdir as [Hdir|Hdir]; [congruence|].
      destruct (IH (set_uploads (Present (delete x m)) w) (delete x m) Hnd eq_refl)
        as (m' & Hrun & Hm').
      { intros name Hname. rewrite lookup_delete_ne by (intros ->; done).
        apply Hin. apply elem_of_cons. by right. }
      { eapply Exists_impl; [exact Hdir|]. simpl. intros name Hname.
        rewrite lookup_delete_ne; [done|]. intros ->. congruence. }
      exists m'. split.
      * erewrite bind_ok; [|by eapply unlink_file].
        erewrite bind_raise; [|exact Hrun]. done.
      * intros name Hname. apply Hm'.
        rewrite lookup_delete_ne; [done|]. intros ->. congruence.
    + exists m. split; [|done].
      erewrite bind_raise; [|by eapply unlink_directory].
      by rewrite <- Hm, set_uploads_id.
Qed.

Lemma purge_flat `{!ExternalSpec E} (w : World) (m : gmap string entry) :
  uploads w = Present m ->
  flat (Present m) ->
  exists us, for_each unlink (listdir m) w = (Ok us, set_uploads ∅ w).
Proof.
  intros Hm Hflat.
  destruct (for_each_unlink_files (listdir m) w m) as (us & m' & Hrun & Hm').
  - apply listdir_NoDup.
  - done.
  - intros name [e He]%listdir_elem.
    destruct (flat_regular m name e Hflat He) as [c ->]. by eauto.
  - exists us. rewrite Hrun. change (∅ : directory) with (Present ∅).
    do 3 f_equal. apply map_eq. intros name.
    rewrite Hm', lookup_empty. destruct (decide (name ∈ listdir m)) as [|Hn]; [done|].
    destruct (m !! name) eqn:Hl; [|done].
    exfalso. apply Hn. apply listdir_elem. by eauto.
Qed.

(** ** Storing files *)

Lemma store_name_fresh `{!ExternalSpec E} (d : directory) (name : string) :
  entries d !! store_name d name = None.
Proof.
  apply not_elem_of_dom. unfold store_name.
  destruct (decide (name ∈ dom (entries d))); [apply resolve_conflict_fresh | done].
Qed.

Lemma store_all_spec `{!ExternalSpec E} (fs : list FileStorage) (d : directory) :
  length (store_all d fs).1 = length fs /\
  NoDup (store_all d fs).1 /\
  (forall name, name ∈ (store_all d fs).1 -> entries d !! name = None) /\
  (forall name,
     name ∉ (store_all d fs).1 ->
     entries (store_all d fs).2 !! name = entries d !! name) /\
  (forall i name file,
     (store_all d fs).1 !! i = Some name -> fs !! i = Some file ->
     (store_all d fs).2 !! name = Some (stream file)) /\
  (flat d -> flat (store_all d fs).2).
Proof.
  revert d. induction fs as [|file fs IH]; intros d; simpl.
  - split; [done|]. split; [constructor|]. split; [by intros ? ?%elem_of_nil|].
    split; [done|]. split; [|done]. by intros [|?] ? ?.
  - set (name := store_name d (filename file)).
    specialize (IH (write_file name (stream file) d)).
    destruct (store_all (write_file name (stream file) d) fs) as [names d'] eqn:Hs.
    simpl in *. destruct IH as (Hlen & Hnd & Hnew & Hold & Hat & Hflat).
    assert (Hname : name ∉ names).
    { intros Hin. specialize (Hnew name Hin). by rewrite lookup_insert_eq in Hnew. }
    split; [by rewrite Hlen|]. split; [by constructor|].
    split; [|split; [|split]].
    + intros n [->|Hn]%elem_of_cons; [apply store_name_fresh|].
      specialize (Hnew n Hn).
      rewrite lookup_insert_ne in Hnew; [done|]. intros <-. done.
    + intros n Hn. rewrite Hold.
      * rewrite lookup_insert_ne; [done|]. intros <-. apply Hn, elem_of_cons. by left.
      * intros Hin. apply Hn, elem_of_cons. by right.
    + intros [|i] n f; simpl.
      * intros [= <-] [= <-]. rewrite directory_lookup_entries, Hold by done.
        by rewrite lookup_insert_eq.
      * apply Hat.
    + intros Hd. by apply Hflat, flat_write_file.
Qed.

Lemma store_accepted_all (d : directory) (fs : list FileStorage) :
  Forall (fun file => file_allowed (filename file) = true) fs ->
  store_accepted d fs = (store_all d fs, true).
Proof.
  revert d. induction fs as [|file fs IH]; intros d Hok; simpl; [done|].
  apply Forall_cons in Hok as [Ha Hok]. rewrite Ha, (IH _ Hok).
  by destruct (store_all _ fs).
Qed.

Lemma store_accepted_refused (d : directory)
    (before : list FileStorage) (bad : FileStorage) (after : list FileStorage) :
  Forall (fun file => file_allowed (filename file) = true) before ->
  file_allowed (filename bad) = false ->
  store_accepted d (before ++ bad :: after) = (store_all d before, false).
Proof.
  revert d. induction before as [|file before IH]; intros d Hok Hbad; simpl.
  - by rewrite Hbad.
  - apply Forall_cons in Hok as [Ha Hok]. rewrite Ha, (IH _ Hok Hbad).
    by destruct (store_all _ before).
Qed.

Lemma store_accepted_flat (d : directory) (fs : list FileStorage) :
  flat d -> flat (store_accepted d fs).1.2.
Proof.
  revert d. induction fs as [|file fs IH]; intros d Hd; simpl; [done|].
  destruct (file_allowed (filename file)); [|done].
  specialize (IH (write_file (store_name d (filename file)) (stream file) d)
                 (flat_write_file _ _ _ Hd)).
  by destruct (store_accepted _ fs) as [[names d'] ok].
Qed.


(** ** The session *)

Lemma session_has_eq (key : string) (w : World) :
  session_has key w =
    (Ok (match session w !! key with Some _ => true | None => false end), w).
Proof. unfold session_has, bind, get. by destruct (session w !! key). Qed.

Lemma session_get_Some (key : string) (w : World) (l : list string) :
  session w !! key = Some l -> session_get key w = (Ok l, w).
Proof. unfold session_get, bind, get. by intros ->. Qed.

Lemma session_get_None (key : string) (w : World) :
  session w !! key = None -> session_get key w = (Raise (KeyError key), w).
Proof. unfold session_get, bind, get. by intros ->. Qed.

(** ** The upload loop *)

Lemma photos_save_plain (file : FileStorage) (w : World) :
  plain_name (filename file) = true ->
  photos_save file w =
    if file_allowed (filename file) then
      (Ok (store_name (uploads w) (filename file)),
       set_uploads
         (write_file (store_name (uploads w) (filename file)) (stream file) (uploads w)) w)
    else (Raise UploadNotAllowed, w).
Proof.
  intros Hplain. unfold photos_save, bind, get, modify. rewrite Hplain.
  by destruct (file_allowed (filename file)).
Qed.

Lemma upload_loop_any (request : Request) (ks : list string) (w : World)
    (l : list string) :
  Forall (fun k => is_Some (multidict_get k (files request))) ks ->
  Forall (fun file => plain_name (filename file) = true)
         (omap (fun k => multidict_get k (files request)) ks) ->
  session w !! "file_urls" = Some l ->
  let stored :=
    store_accepted (uploads w) (omap (fun k => multidict_get k (files request)) ks) in
  exists r,
    for_each (save_upload request) ks w =
      (r, set_session (<["file_urls" := l ++ (photos_url <$> stored.1.1)]> (session w))
            (set_uploads stored.1.2 w)) /\
    (if stored.2 then exists us, r = Ok us else r = Raise UploadNotAllowed).
Proof.
  revert w l. induction ks as [|k ks IH]; intros w l Hget Hplain Hl.
  - exists (Ok []). simpl. rewrite app_nil_r, insert_id by done.
    rewrite set_uploads_id, set_session_id. by eauto.
  - apply Forall_cons in Hget as [[file Hfile] Hget].
    cbn [omap list_omap for_each] in Hplain |- *. rewrite Hfile in Hplain |- *.
    apply Forall_cons in Hplain as [Hfileplain Hplain].
    cbn [store_accepted].
    destruct (file_allowed (filename file)) eqn:Hallowed.
    + set (name := store_name (uploads w) (filename file)).
      set (w1 := set_session (<["file_urls" := l ++ [photos_url name]]> (session w))
                   (set_uploads (write_file name (stream file) (uploads w)) w)).
      destruct (IH w1 (l ++ [photos_url name]) Hget Hplain) as (r & Hrun & Hr).
      { simpl. by rewrite lookup_insert_eq. }
      assert (Hstep : save_upload request k w = (Ok tt, w1)).
      { unfold save_upload. rewrite Hfile.
        erewrite bind_ok; [|by rewrite photos_save_plain, Hallowed].
        unfold session_append, modify, w1. simpl.
        by rewrite (alter_lookup_insert _ _ _ l). }
      erewrite bind_ok; [|exact Hstep].
      unfold bind at 1. rewrite Hrun.
      change (uploads w1) with (write_file name (stream file) (uploads w)) in *.
      destruct (store_accepted (write_file name (stream file) (uploads w)) _)
        as [[names d'] ok].
      cbn [fst snd] in *. unfold w1. simpl.
      rewrite insert_insert_eq, <- app_assoc. simpl.
      destruct ok.
      * destruct Hr as [us ->]. exists (Ok (tt :: us)). by eauto.
      * rewrite Hr. by exists (Raise UploadNotAllowed).
    + exists (Raise UploadNotAllowed). cbn [fst snd fmap list_fmap].
      rewrite app_nil_r, insert_id by done.
      rewrite set_uploads_id, set_session_id. split; [|done].
      apply bind_raise. unfold save_upload. rewrite Hfile.
      apply bind_raise. by rewrite photos_save_plain, Hallowed.
Qed.

(** ** Classifying a list of files *)

Lemma read_file_uploads (w w' : World) (path : string) :
  uploads w' = uploads w -> read_file w' path = read_file w path.
Proof. unfold read_file. by intros ->. Qed.

Lemma after_main_frame (img_path : string) (w : World) :
  uploads (after_main img_path w) = uploads w /\
  session (after_main img_path w) = session w.
Proof.
  unfold after_main.
  destruct (face_result _) as [[|]|]; [done| |done].
  by destruct (dog_result _) as [[|]|].
Qed.

Lemma for_each_main_algorithm (ps : list string) (w : World) :
  run (for_each main_algorithm ps) w
    = collect ((fun p => message_result (read_file w p)) <$> ps) /\
  uploads (exec (for_each main_algorithm ps) w) = uploads w /\
  session (exec (for_each main_algorithm ps) w) = session w.
Proof.
  revert w. induction ps as [|p ps IH]; intros w; [done|].
  destruct (after_main_frame p w) as [Hu Hs].
  destruct (IH (after_main p w)) as (Hrun & Hup & Hse).
  assert (Heq : (fun q => message_result (read_file (after_main p w) q)) <$> ps
                = (fun q => message_result (read_file w q)) <$> ps).
  { apply list_fmap_ext. intros i q _. by rewrite (read_file_uploads w). }
  rewrite Heq in Hrun. clear Heq.
  rewrite fmap_cons. unfold run, exec in *.
  cbn [for_each collect].
  destruct (message_result (read_file w p)) as [m|e] eqn:Hm.
  - erewrite bind_ok; [|by rewrite main_algorithm_eq, Hm].
    unfold bind, ret.
    destruct (for_each main_algorithm ps (after_main p w)) as [[ms|e] w'];
      simpl in *; rewrite <- Hrun; by rewrite Hup, Hse.
  - erewrite bind_raise; [|by rewrite main_algorithm_eq, Hm]. done.
Qed.

End WebFacts.

Section Views.

Context {E : External} `{!ExternalSpec E}.

(** ** The index view, step by step *)

Lemma index_missing (request : Request) (w : World) :
  uploads w = Missing -> index request w = (Raise FileNotFoundError, w).
Proof.
  intros Hm. unfold index. apply bind_raise. by apply path_iterdir_missing.
Qed.

Lemma index_sub_directory (request : Request) (w : World)
    (m : gmap string entry) (name : string) :
  uploads w = Present m ->
  m !! name = Some SubDirectory ->
  exists m',
    index request w = (Raise IsADirectoryError, set_uploads (Present m') w) /\
    forall name', m !! name' = Some SubDirectory -> m' !! name' = Some SubDirectory.
Proof.
  intros Hm Hname.
  destruct (for_each_unlink_directory (listdir m) w m) as (m' & Hrun & Hm').
  - apply listdir_NoDup.
  - done.
  - intros name'. apply listdir_elem.
  - apply Exists_exists. exists name. split; [|done]. apply listdir_elem. by eauto.
  - exists m'. split; [|done]. unfold index.
    erewrite (bind_ok path_iterdir); [|by apply path_iterdir_present].
    by erewrite (bind_raise (for_each unlink _)).
Qed.


Lemma index_get_eq (request : Request) (w : World) :
  flat (uploads w) ->
  method request = GET ->
  index request w =
    (Ok (Template "index.html" []),
     match session w !! "file_urls" with
     | Some _ => set_session (<["file_urls" := []]> (session w)) (set_uploads ∅ w)
     | None => set_uploads ∅ w
     end).
Proof.
  intros Hflat Hmethod. destruct (uploads w) as [|m] eqn:Hm; [done|].
  unfold index.
  destruct (purge_flat w m Hm Hflat) as [us Hpurge].
  erewrite (bind_ok path_iterdir); [|by apply path_iterdir_present].
  erewrite (bind_ok (for_each unlink _)); [|exact Hpurge].
  erewrite (bind_ok (session_has _)); [|apply session_has_eq].
  rewrite Hmethod. cbn [session set_uploads].
  by destruct (session w !! "file_urls").
Qed.

Lemma index_post_any (request : Request) (w : World) :
  flat (uploads w) ->
  method request = POST ->
  Forall (fun file => plain_name (filename file) = true) (request_files request) ->
  index request w =
    (if (store_accepted ∅ (request_files request)).2
     then Ok (Text "uploading...") else Raise UploadNotAllowed,
     set_session
       (<["file_urls" := photos_url <$> (store_accepted ∅ (request_files request)).1.1]>
          (session w))
       (set_uploads (store_accepted ∅ (request_files request)).1.2 w)).
Proof.
  intros Hflat Hmethod Hplain. destruct (uploads w) as [|m] eqn:Hm; [done|].
  unfold index.
  destruct (purge_flat w m Hm Hflat) as [us Hpurge].
  erewrite (bind_ok path_iterdir); [|by apply path_iterdir_present].
  erewrite (bind_ok (for_each unlink _)); [|exact Hpurge].
  erewrite (bind_ok (session_has _)); [|apply session_has_eq].
  rewrite Hmethod. cbn [session set_uploads].
  set (w1 := set_session (<["file_urls" := []]> (session w)) (set_uploads ∅ w)).
  destruct (upload_loop_any request (multidict_keys [] (files request)) w1 [])
    as (r & Hloop & Hr);
    [apply multidict_keys_get | exact Hplain | apply lookup_insert_eq |].
  fold (request_files request) in Hloop, Hr.
  change (uploads w1) with (∅ : directory) in Hloop, Hr.
  assert (Hrest :
    (_ <- session_get "file_urls" ;;
     for_each (save_upload request) (multidict_keys [] (files request)) ;;;
     file_urls <- session_get "file_urls" ;;
     session_set "file_urls" file_urls ;;;
     ret (Text "uploading...")) w1 =
    (if (store_accepted ∅ (request_files request)).2
     then Ok (Text "uploading...") else Raise UploadNotAllowed,
     set_session
       (<["file_urls" := photos_url <$> (store_accepted ∅ (request_files request)).1.1]>
          (session w))
       (set_uploads (store_accepted ∅ (request_files request)).1.2 w))).
  { erewrite (bind_ok (session_get _)); [|apply session_get_Some, lookup_insert_eq].
    destruct (store_accepted ∅ (request_files request)) as [[names d] ok].
    cbn [fst snd] in *. destruct ok.
    - destruct Hr as [us' ->].
      erewrite (bind_ok (for_each _ _)); [|exact Hloop].
      erewrite (bind_ok (session_get _)); [|apply session_get_Some, lookup_insert_eq].
      unfold session_set, bind, modify, ret, w1. cbn.
      by rewrite !insert_insert_eq.
    - rewrite Hr in Hloop.
      erewrite (bind_raise (for_each _ _)); [|exact Hloop].
      unfold w1. cbn. by rewrite !insert_insert_eq. }
  destruct (session w !! "file_urls") as [l0|] eqn:Hl.
  - erewrite (bind_ok (session_set _ _)); [|reflexivity].
    erewrite (bind_ok (session_has _)); [|apply session_has_eq].
    cbn [session set_session]. rewrite lookup_insert_eq. cbn [negb].
    erewrite (bind_ok (ret tt)); [|reflexivity]. exact Hrest.
  - erewrite (bind_ok (ret tt)); [|reflexivity].
    erewrite (bind_ok (session_has _)); [|apply session_has_eq].
    cbn [session set_uploads]. rewrite Hl. cbn [negb].
    erewrite (bind_ok (session_set _ _)); [|reflexivity]. exact Hrest.
Qed.

Lemma index_post (request : Request) (w : World) :
  flat (uploads w) ->
  method request = POST ->
  Forall (fun file => plain_name (filename file) = true) (request_files request) ->
  Forall (fun file => file_allowed (filename file) = true) (request_files request) ->
  index request w =
    (Ok (Text "uploading..."),
     set_session
       (<["file_urls" := photos_url <$> (store_all ∅ (request_files request)).1]>
          (session w))
       (set_uploads (store_all ∅ (request_files request)).2 w)).
Proof.
  intros Hflat Hmethod Hplain Hok.
  by rewrite (index_post_any request w Hflat Hmethod Hplain), (store_accepted_all _ _ Hok).
Qed.

(** After a request with plain file names the directory is one of regular
    files again. *)
Lemma index_keeps_flat (request : Request) (w : World) :
  flat (uploads w) ->
  Forall (fun file => plain_name (filename file) = true) (request_files request) ->
  flat (uploads (exec (index request) w)).
Proof.
  intros Hflat Hplain. unfold exec. destruct (method request) eqn:Hmethod.
  - rewrite (index_get_eq request w Hflat Hmethod). simpl.
    destruct (session w !! "file_urls"); apply flat_empty.
  - rewrite (index_post_any request w Hflat Hmethod Hplain). simpl.
    apply store_accepted_flat, flat_empty.
Qed.

Lemma iterdir_NoDup (d : directory) : NoDup (iterdir d).
Proof. destruct d as [|m]; [apply NoDup_nil_2 | apply listdir_NoDup]. Qed.

Lemma iterdir_elem (d : directory) (name : string) :
  name ∈ iterdir d <-> is_Some (entries d !! name).
Proof.
  destruct d as [|m]; simpl; [|apply listdir_elem].
  rewrite elem_of_nil, lookup_empty. split; [done|]. by intros [? ?].
Qed.

Lemma iterdir_empty : iterdir (∅ : directory) = [].
Proof.
  apply elem_of_nil_inv. intros name. rewrite iterdir_elem. simpl.
  rewrite lookup_empty. by intros [? ?].
Qed.

(** The names given to the files of an upload are the entries of the
    directory it leaves. *)
Lemma store_all_listing (fs : list FileStorage) :
  (store_all ∅ fs).1 ≡ₚ iterdir (store_all ∅ fs).2.
Proof.
  destruct (store_all_spec fs ∅) as (Hlen & Hnd & _ & Hold & Hat & _).
  apply NoDup_Permutation; [done | apply iterdir_NoDup |].
  intros name. rewrite iterdir_elem. split.
  - intros [j Hj]%list_elem_of_lookup.
    destruct (lookup_lt_is_Some_2 fs j) as [file Hfile].
    { rewrite <- Hlen. by eapply lookup_lt_Some. }
    pose proof (Hat j name file Hj Hfile) as Hc.
    apply directory_lookup_Some in Hc. by eauto.
  - intros [c Hc]. destruct (decide (name ∈ (store_all ∅ fs).1)) as [|Hn]; [done|].
    rewrite (Hold name Hn) in Hc. simpl in Hc. by rewrite lookup_empty in Hc.
Qed.

Lemma store_accepted_ok (d : directory) (fs : list FileStorage) :
  (store_accepted d fs).2 = forallb (fun file => file_allowed (filename file)) fs.
Proof.
  revert d. induction fs as [|file fs IH]; intros d; [done|].
  cbn [store_accepted forallb]. destruct (file_allowed (filename file)); [|done].
  specialize (IH (write_file (store_name d (filename file)) (stream file) d)).
  by destruct (store_accepted _ fs) as [[names d'] ok].
Qed.

Lemma iterdir_length (d : directory) : length (iterdir d) = size d.
Proof.
  destruct d as [|m]; [done|]. unfold size, directory_size. simpl.
  rewrite <- length_map_to_list, <- (length_fmap fst).
  apply Permutation_length, NoDup_Permutation.
  - apply listdir_NoDup.
  - apply NoDup_fst_map_to_list.
  - intros name. rewrite listdir_elem, list_elem_of_fmap. split.
    + intros [c Hc]. exists (name, c). split; [done|]. by apply elem_of_map_to_list.
    + intros [[n c] [-> Hin]]. apply elem_of_map_to_list in Hin. by eauto.
Qed.

Lemma store_all_distinct (d : directory) (fs : list FileStorage) :
  NoDup (filename <$> fs) ->
  (forall file, file ∈ fs -> entries d !! filename file = None) ->
  (store_all d fs).1 = filename <$> fs.
Proof.
  revert d. induction fs as [|file fs IH]; intros d Hnd Hfree; [done|].
  rewrite fmap_cons in Hnd. apply NoDup_cons in Hnd as [Hfile Hnd].
  cbn [store_all].
  assert (Hname : store_name d (filename file) = filename file).
  { unfold store_name. rewrite decide_False; [done|].
    apply not_elem_of_dom, Hfree, elem_of_cons. by left. }
  rewrite Hname.
  specialize (IH (write_file (filename file) (stream file) d) Hnd).
  destruct (store_all (write_file (filename file) (stream file) d) fs) as [names d'].
  cbn [fst] in *. rewrite fmap_cons. f_equal. apply IH.
  intros file' Hin. simpl. rewrite lookup_insert_ne.
  - apply Hfree, elem_of_cons. by right.
  - intros Heq. apply Hfile. rewrite Heq. by apply list_elem_of_fmap_2.
Qed.

End Views.

Section PredictionsFacts.

Context {E : External}.

Lemma predictions_eq (w : World) (urls : list string) :
  session w !! "file_urls" = Some urls ->
  predictions w =
    (match uploads w with
     | Missing => Raise FileNotFoundError
     | Present _ =>
         match collect ((fun name => message_result (uploads w !! name))
                          <$> iterdir (uploads w)) with
         | Ok preds =>
             Ok (Template "predictions.html"
                   [("file_urls", urls); ("predictions", preds)])
         | Raise e => Raise e
         end
     end,
     exec (for_each main_algorithm (upload_path <$> iterdir (uploads w)))
          (set_session (delete "file_urls" (session w)) w)).
Proof.
  intros Hurls. unfold predictions.
  erewrite (bind_ok (session_get _)); [|by apply session_get_Some].
  erewrite (bind_ok (session_pop _)); [|reflexivity].
  set (w1 := set_session (delete "file_urls" (session w)) w).
  destruct (uploads w) as [|m] eqn:Hm.
  - erewrite (bind_raise path_iterdir); [done|]. by apply path_iterdir_missing.
  - erewrite (bind_ok path_iterdir); [|by apply (path_iterdir_present w1 m)].
    cbn [iterdir].
    destruct (for_each_main_algorithm (upload_path <$> listdir m) w1) as (Hrun & _ & _).
    rewrite <- list_fmap_compose in Hrun.
    erewrite (list_fmap_ext _ (fun name => message_result (Present m !! name))) in Hrun
      by (intros i name _; simpl; rewrite read_file_upload; unfold w1; simpl;
          by rewrite Hm).
    rewrite <- Hrun. unfold run, exec, bind.
    by destruct (for_each main_algorithm _ w1) as [[preds|e] w2].
Qed.

Lemma uploaded_images_eq (w : World) :
  uploaded_images w =
    (match session w !! "file_urls" with
     | Some (url :: urls) =>
         Ok (Template "uploaded_images.html" [("file_urls", url :: urls)])
     | _ => Ok (Redirect "/")
     end, w).
Proof.
  unfold uploaded_images, session_has, session_get, url_for, bind, get, ret.
  destruct (session w !! "file_urls") as [[|url urls]|] eqn:H;
    repeat (rewrite ?H; simpl); reflexivity.
Qed.

Lemma predictions_no_key (w : World) :
  session w !! "file_urls" = None ->
  predictions w = (Raise (KeyError "file_urls"), w).
Proof.
  intros Hnone. unfold predictions.
  erewrite bind_raise; [done|]. by apply session_get_None.
Qed.

Lemma index_same_loop (r1 r2 : Request) (w : World) :
  method r1 = method r2 ->
  multidict_keys [] (files r1) = multidict_keys [] (files r2) ->
  (forall k, multidict_get k (files r1) = multidict_get k (files r2)) ->
  index r1 w = index r2 w.
Proof.
  intros Hmethod Hkeys Hget. unfold index. rewrite Hmethod, Hkeys.
  apply bind_ext. intros names w1.
  apply bind_ext. intros _ w2.
  apply bind_ext. intros has w3.
  apply bind_ext. intros _ w4.
  destruct (method r2); [done|].
  apply bind_ext. intros has' w5.
  apply bind_ext. intros _ w6.
  apply bind_ext. intros _ w7.
  unfold bind at 1 3.
  rewrite (for_each_pointwise (save_upload r1) (save_upload r2)); [done|].
  intros k w'. unfold save_upload. by rewrite Hget.
Qed.

End PredictionsFacts.

Section ViewClaims.

Context {E : External} `{!ExternalSpec E}.



(** C7. [/results] redirects to [/] when the session has no URL list or an
    empty one; with a non-empty list it renders that list and does not
    redirect. Neither case changes anything. *)
Theorem results_redirects_when_empty (w : World) :
  (session w !! "file_urls" = None \/ session w !! "file_urls" = Some [] ->
   uploaded_images w = (Ok (Redirect "/"), w)) /\
  (forall url urls,
     session w !! "file_urls" = Some (url :: urls) ->
     uploaded_images w =
       (Ok (Template "uploaded_images.html" [("file_urls", url :: urls)]), w)).
Proof.
  unfold uploaded_images, session_has, session_get, url_for, bind, get, ret.
  split.
  - intros [H|H]; repeat (rewrite H; simpl); reflexivity.
  - intros url urls H. repeat (rewrite H; simpl). reflexivity.
Qed.

(** C8. [/predictions] on a session without ["file_urls"] fails with the
    [KeyError] of the first statement: nothing is rendered, nothing is
    redirected, nothing is classified or changed. *)
Theorem predictions_without_upload_fails (w : World) :
  session w !! "file_urls" = None ->
  predictions w = (Raise (KeyError "file_urls"), w).
Proof.
  intros Hnone. unfold predictions.
  erewrite bind_raise; [done|]. by apply session_get_None.
Qed.

(** C9, for an upload directory that exists and holds regular files only,
    and a request in which each form field carries one file, every file
    with a plain name that [photos.save] accepts. The purge and the reset
    of the session list also run on a POST: the request ends with the
    session list being exactly the URLs of the files of this request, in
    order, and the directory holding exactly these files, one entry per
    file under the name [photos.save] returned, whatever the directory and
    the session list held before; so a second batch erases the first. *)
Theorem index_post_replaces_previous_upload (request : Request) (w : World) :
  flat (uploads w) ->
  method request = POST ->
  NoDup (files request).*1 ->
  Forall (fun file => plain_name (filename file) = true) (files request).*2 ->
  Forall (fun file => file_allowed (filename file) = true) (files request).*2 ->
  let names := (store_all ∅ (files request).*2).1 in
  let d := (store_all ∅ (files request).*2).2 in
  run (index request) w = Ok (Text "uploading...") /\
  session (exec (index request) w) !! "file_urls" = Some (photos_url <$> names) /\
  uploads (exec (index request) w) = d /\
  length names = length (files request) /\
  NoDup names /\
  (forall i name f file,
     names !! i = Some name -> files request !! i = Some (f, file) ->
     d !! name = Some (stream file)) /\
  (forall name, name ∉ names -> entries d !! name = None) /\
  (forall earlier w0,
     flat (uploads w0) ->
     Forall (fun file => plain_name (filename file) = true) (request_files earlier) ->
     uploads (exec (index request) (exec (index earlier) w0)) = d /\
     session (exec (index request) (exec (index earlier) w0)) !! "file_urls"
       = Some (photos_url <$> names)).
Proof.
  intros Hflat Hpost Hfields Hplain Hok names d.
  pose proof (request_files_distinct request Hfields) as Hfiles.
  destruct (store_all_spec (files request).*2 ∅)
    as (Hlen & Hnd & _ & Hold & Hat & _).
  assert (Hindex : forall w', flat (uploads w') ->
    index request w' =
      (Ok (Text "uploading..."),
       set_session (<["file_urls" := photos_url <$> names]> (session w'))
                   (set_uploads d w'))).
  { intros w' Hflat'. rewrite (index_post request w' Hflat' Hpost).
    - by rewrite Hfiles.
    - by rewrite Hfiles.
    - by rewrite Hfiles. }
  unfold run, exec. rewrite (Hindex w Hflat). simpl.
  split; [done|]. split; [by rewrite lookup_insert_eq|]. split; [done|].
  split; [by rewrite length_fmap in Hlen|]. split; [done|]. split; [|split].
  - intros i name f file Hname Hfile. apply (Hat i); [done|].
    by rewrite list_lookup_fmap, Hfile.
  - intros name Hname. unfold d. rewrite (Hold name Hname). apply lookup_empty.
  - intros earlier w0 Hflat0 Hplain0.
    rewrite (Hindex (index earlier w0).2).
    + simpl. by rewrite lookup_insert_eq.
    + by apply index_keeps_flat.
Qed.

(** C10. [/predictions] removes ["file_urls"] from the session before it
    classifies anything: the classification loop runs in a world where the
    key is already gone, the key is absent when the view ends, and this is
    also so when [main_algorithm] raises on one of the files, in which case
    the view raises. *)
Theorem predictions_clears_session_first (w : World) (urls : list string) :
  session w !! "file_urls" = Some urls ->
  exec predictions w =
    exec (for_each main_algorithm (upload_path <$> iterdir (uploads w)))
         (set_session (delete "file_urls" (session w)) w) /\
  session (exec predictions w) !! "file_urls" = None /\
  (forall name e,
     name ∈ iterdir (uploads w) ->
     run (main_algorithm (upload_path name)) w = Raise e ->
     exists e',
       run predictions w = Raise e' /\
       session (exec predictions w) !! "file_urls" = None).
Proof.
  intros Hurls. unfold run, exec. rewrite (predictions_eq w urls Hurls). simpl.
  destruct (for_each_main_algorithm (upload_path <$> iterdir (uploads w))
              (set_session (delete "file_urls" (session w)) w)) as (_ & _ & Hs).
  unfold exec in Hs.
  assert (Hgone : session (for_each main_algorithm (upload_path <$> iterdir (uploads w))
                     (set_session (delete "file_urls" (session w)) w)).2
                  !! "file_urls" = None).
  { rewrite Hs. simpl. apply lookup_delete_eq. }
  split; [done|]. split; [done|].
  intros name e Hname Hraise.
  rewrite main_algorithm_eq, read_file_upload in Hraise. simpl in Hraise.
  destruct (uploads w) as [|m] eqn:Hm.
  - exists FileNotFoundError. done.
  - destruct (collect_raise
                ((fun name => message_result (Present m !! name)) <$> iterdir (Present m)) e)
      as [e' He'].
    { apply list_elem_of_fmap. by exists name. }
    exists e'. by rewrite He'.
Qed.

End ViewClaims.

(** ** The concrete instance at work *)

(** The listing and the naming policy of the concrete instance are as the
    operating system and flask_uploads guarantee. *)
Lemma demo_spec : ExternalSpec demo.
Proof.
  split.
  - intros m. apply NoDup_fst_map_to_list.
  - intros m name. simpl. rewrite list_elem_of_fmap. split.
    + intros [[n c] [-> Hin]]. apply elem_of_map_to_list in Hin. by eauto.
    + intros [c Hc]. exists (name, c). split; [done|]. by apply elem_of_map_to_list.
  - intros names name. apply is_fresh.
Qed.

Lemma flat_fresh_world : flat (uploads fresh_world).
Proof. apply flat_empty. Qed.


Lemma two_files_plain :
  Forall (fun file => plain_name (filename file) = true) (request_files two_files).
Proof. unfold request_files. simpl. repeat constructor. Qed.

Lemma two_files_allowed :
  Forall (fun file => @file_allowed demo (filename file) = true) (request_files two_files).
Proof. unfold request_files. simpl. repeat constructor. Qed.



(** C7 without a list, with an empty list and with one URL. *)
Lemma results_redirects_when_empty_witness :
  run uploaded_images fresh_world = Ok (Redirect "/") /\
  run uploaded_images (set_session {["file_urls" := []]} fresh_world) = Ok (Redirect "/") /\
  run uploaded_images (set_session {["file_urls" := ["/_uploads/photos/a.jpg"]]} fresh_world)
    = Ok (Template "uploaded_images.html" [("file_urls", ["/_uploads/photos/a.jpg"])]).
Proof.
  unfold run. split; [|split].
  - destruct (results_redirects_when_empty fresh_world) as [H _].
    rewrite H; [reflexivity | left; reflexivity].
  - destruct (results_redirects_when_empty
                (set_session {["file_urls" := []]} fresh_world)) as [H _].
    rewrite H; [reflexivity | right; vm_compute; reflexivity].
  - destruct (results_redirects_when_empty
                (set_session {["file_urls" := ["/_uploads/photos/a.jpg"]]} fresh_world))
      as [_ H].
    rewrite (H "/_uploads/photos/a.jpg" []); [reflexivity | vm_compute; reflexivity].
Defined.

(** C8 right after start-up, with a file lying in the directory. *)
Lemma predictions_without_upload_fails_witness :
  @predictions demo (with_files [("old.jpg", dog_jpg)])
    = (Raise (KeyError "file_urls"), with_files [("old.jpg", dog_jpg)]).
Proof.
  apply (@predictions_without_upload_fails demo). reflexivity.
Defined.

(** C9 on an upload of two files into a directory and a session that hold
    an earlier upload. *)
Lemma index_post_replaces_previous_upload_witness :
  let w := set_session {["file_urls" := ["/_uploads/photos/old.jpg"]]}
             (with_files [("old.jpg", dog_jpg)]) in
  session (exec (@index demo two_files) w) !! "file_urls"
    = Some ["/_uploads/photos/a.jpg"; "/_uploads/photos/b.jpg"] /\
  uploads (exec (@index demo two_files) w)
    = write_file "b.jpg" blank_jpg (write_file "a.jpg" face_jpg ∅).
Proof.
  intros w.
  destruct (@index_post_replaces_previous_upload demo demo_spec two_files w)
    as (_ & Hs & Hu & _).
  - apply flat_files.
  - reflexivity.
  - apply (bool_decide_unpack _). vm_compute. exact I.
  - repeat constructor.
  - repeat constructor.
  - split.
    + rewrite Hs. vm_compute. reflexivity.
    + rewrite Hu. vm_compute. reflexivity.
Defined.

(** C9 as stated fails, in four ways. Two files under one form field: the
    second is not stored and has no URL. A refused file: the request
    fails, the file after the refused one is not stored and has no URL. A
    file name that leads out of the upload directory: the session list
    has its URL, the directory is empty. A sub-directory left by an
    earlier upload: the request fails in the purge, and the session list
    is still that of the earlier upload. *)
Lemma index_post_counterexample :
  let one_field := post [("file", mkFile "a.jpg" face_jpg);
                         ("file", mkFile "b.jpg" dog_jpg)] in
  let refused := post [("file[0]", mkFile "a.jpg" face_jpg);
                       ("file[1]", mkFile "notes.txt" dog_jpg);
                       ("file[2]", mkFile "c.jpg" blank_jpg)] in
  let outside := post [("file[0]", mkFile "../evil.jpg" face_jpg)] in
  let nested := post [("file[0]", mkFile "2019/a.jpg" face_jpg)] in
  let single := post [("file[0]", mkFile "b.jpg" blank_jpg)] in
  (run (@index demo one_field) fresh_world = Ok (Text "uploading...") /\
   session (exec (@index demo one_field) fresh_world) !! "file_urls"
     = Some ["/_uploads/photos/a.jpg"] /\
   @iterdir demo (uploads (exec (@index demo one_field) fresh_world)) = ["a.jpg"]) /\
  (run (@index demo refused) fresh_world = Raise UploadNotAllowed /\
   session (exec (@index demo refused) fresh_world) !! "file_urls"
     = Some ["/_uploads/photos/a.jpg"] /\
   @iterdir demo (uploads (exec (@index demo refused) fresh_world)) = ["a.jpg"]) /\
  (run (@index demo outside) fresh_world = Ok (Text "uploading...") /\
   session (exec (@index demo outside) fresh_world) !! "file_urls"
     = Some ["/_uploads/photos/../evil.jpg"] /\
   uploads (exec (@index demo outside) fresh_world) = ∅) /\
  (run (@index demo single) (exec (@index demo nested) fresh_world)
     = Raise IsADirectoryError /\
   session (exec (@index demo single) (exec (@index demo nested) fresh_world))
     !! "file_urls" = Some ["/_uploads/photos/2019/a.jpg"] /\
   uploads (exec (@index demo single) (exec (@index demo nested) fresh_world))
     !! "b.jpg" = None).
Proof. vm_compute. repeat split; reflexivity. Qed.

(** C10 on a directory with a file OpenCV cannot read. *)
Lemma predictions_clears_session_first_witness :
  let w := set_session {["file_urls" := ["/_uploads/photos/bad.jpg"]]}
             (with_files [("bad.jpg", [])]) in
  exists e,
    run (@predictions demo) w = Raise e /\
    session (exec (@predictions demo) w) !! "file_urls" = None.
Proof.
  intros w.
  destruct (@predictions_clears_session_first demo w ["/_uploads/photos/bad.jpg"])
    as (_ & _ & H); [vm_compute; reflexivity|].
  apply (H "bad.jpg" CvError); vm_compute; [|reflexivity].
  apply elem_of_cons. by left.
Defined.

(** C4 fails on the code. The blank image is uploaded first as [b.jpg],
    the face second as [a.jpg]; the listing yields [a.jpg] first, so the
    first prediction, shown beside the URL of [b.jpg], is the one of
    [a.jpg]. *)
Theorem predictions_in_upload_order_counterexample :
  run (@predictions demo) (exec (@index demo two_files_swapped) fresh_world)
    = Ok (Template "predictions.html"
            [("file_urls", ["/_uploads/photos/b.jpg"; "/_uploads/photos/a.jpg"]);
             ("predictions", [human_message "Afghan_hound"; unknown_message])]) /\
  run (@main_algorithm demo (@upload_path demo "b.jpg"))
      (exec (@index demo two_files_swapped) fresh_world) = Ok unknown_message /\
  run (@main_algorithm demo (@upload_path demo "a.jpg"))
      (exec (@index demo two_files_swapped) fresh_world)
    = Ok (human_message "Afghan_hound") /\
  ExternalSpec demo /\
  ~ @predictions_in_upload_order demo.
Proof.
  split; [vm_compute; reflexivity|]. split; [vm_compute; reflexivity|].
  split; [vm_compute; reflexivity|]. split; [apply demo_spec|].
  intros H.
  destruct (H "file[0]" "file[1]" (mkFile "b.jpg" blank_jpg) (mkFile "a.jpg" face_jpg)
              fresh_world unknown_message (human_message "Afghan_hound"))
    as [urls Hrun]; [apply flat_empty | done | vm_compute; reflexivity ..|].
  vm_compute in Hrun. discriminate Hrun.
Qed.

(** Two files sent in two requests: the second request purges the first
    file, and one prediction is returned. *)
Example two_requests_leave_one_prediction :
  run (@predictions demo)
      (exec (@index demo (post [("file", mkFile "b.jpg" blank_jpg)]))
         (exec (@index demo (post [("file", mkFile "a.jpg" face_jpg)])) fresh_world))
    = Ok (Template "predictions.html"
            [("file_urls", ["/_uploads/photos/b.jpg"]);
             ("predictions", [unknown_message])]).
Proof. vm_compute. reflexivity. Qed.

(** * Further properties of the pipeline *)

Section PipelineMore.

Context {E : External}.

(** [face_detector] raises the OpenCV error when the image cannot be read,
    otherwise tells whether the cascade found a region; all it leaves
    behind is its entry in the call log: no model is loaded, and the
    directory, the session and the graph globals are as before. *)
Theorem face_detector_reads_only (img_path : string) (w : World) :
  (read_file w img_path ≫= cv2_imread = None ->
   run (face_detector img_path) w = Raise CvError) /\
  (forall img,
     read_file w img_path ≫= cv2_imread = Some img ->
     run (face_detector img_path) w
       = Ok (bool_decide (detectMultiScale (cv2_cvtColor_gray img) ≠ []))) /\
  exec (face_detector img_path) w
    = set_calls (calls w ++ [CallFaceDetector img_path]) w.
Proof.
  unfold run, exec. rewrite face_detector_eq. simpl. unfold face_result.
  split; [by intros ->|]. split; [|done].
  intros img ->. f_equal.
  by destruct (detectMultiScale (cv2_cvtColor_gray img)).
Qed.

(** When keras cannot load the image, [path_to_tensor] raises and changes
    nothing; [dog_detector] and [predict_breed] raise the same error, but
    only after they have reloaded their model: the default graph is
    replaced and their global points to the new one. *)
Theorem unloadable_image_raises_after_model_load (img_path : string) (w : World) :
  read_file w img_path ≫= load_img = None ->
  path_to_tensor img_path w = (Raise ImageError, w) /\
  run (dog_detector img_path) w = Raise ImageError /\
  resnet50_graph (exec (dog_detector img_path) w) = Some (S (default_graph w)) /\
  default_graph (exec (dog_detector img_path) w) = S (default_graph w) /\
  run (predict_breed img_path) w = Raise ImageError /\
  xception_graph (exec (predict_breed img_path) w) = Some (S (default_graph w)) /\
  default_graph (exec (predict_breed img_path) w) = S (default_graph w).
Proof.
  intros Hload. unfold run, exec.
  rewrite dog_detector_eq, predict_breed_eq. simpl.
  unfold dog_result, resnet50_class, breed_result, breed_class. rewrite Hload.
  split; [|done]. unfold path_to_tensor, bind, get. by rewrite Hload.
Qed.




(** The calls of [main_algorithm]: the face detector first, always; then
    one of four continuations, all on the same path. The dog detector is
    called exactly when the face detector returned false, and the breed
    predictor exactly when one of the two detectors returned true. A face
    thus short-circuits the dog detector (ResNet50 is not even loaded), and
    an error of the face detector ends the run before any model is
    loaded. *)
Theorem main_algorithm_call_sequence (img_path : string) (w : World) :
  exists rest,
    calls (exec (main_algorithm img_path) w)
      = calls w ++ CallFaceDetector img_path :: rest /\
    rest ∈ later_calls img_path /\
    (CallDogDetector img_path ∈ rest <->
     run (face_detector img_path) w = Ok false) /\
    (CallPredictBreed img_path ∈ rest <->
     run (face_detector img_path) w = Ok true \/
     (run (face_detector img_path) w = Ok false /\
      run (dog_detector img_path) w = Ok true)) /\
    (run (face_detector img_path) w = Ok true ->
     resnet50_graph (exec (main_algorithm img_path) w) = resnet50_graph w) /\
    (forall e,
       run (face_detector img_path) w = Raise e ->
       run (main_algorithm img_path) w = Raise e /\
       rest = [] /\
       default_graph (exec (main_algorithm img_path) w) = default_graph w).
Proof.
  unfold run, exec.
  rewrite main_algorithm_eq, face_detector_eq, dog_detector_eq. simpl.
  unfold after_main, message_result, later_calls.
  destruct (face_result (read_file w img_path)) as [[|]|e0].
  - exists [CallPredictBreed img_path]. simpl. rewrite <- app_assoc.
    rewrite !elem_of_cons, !elem_of_nil. intuition congruence.
  - destruct (dog_result (read_file w img_path)) as [[|]|e1].
    + exists [CallDogDetector img_path; CallPredictBreed img_path].
      simpl. rewrite <- !app_assoc.
      rewrite !elem_of_cons, !elem_of_nil. intuition congruence.
    + exists [CallDogDetector img_path]. simpl. rewrite <- !app_assoc.
      rewrite !elem_of_cons, !elem_of_nil. intuition congruence.
    + exists [CallDogDetector img_path]. simpl. rewrite <- !app_assoc.
      rewrite !elem_of_cons, !elem_of_nil. intuition congruence.
  - exists []. simpl.
    rewrite !elem_of_cons, !elem_of_nil. intuition congruence.
Qed.

End PipelineMore.

(** * Further properties of the views *)

Section ModelLoads.

Context {E : External}.

Lemma main_algorithm_loads (img_path : string) (w : World) (message : string) :
  run (main_algorithm img_path) w = Ok message ->
  S (default_graph w) <= default_graph (exec (main_algorithm img_path) w)
    <= default_graph w + 2.
Proof.
  unfold run, exec. rewrite main_algorithm_eq. simpl.
  unfold message_result, after_main, with_breed.
  destruct (face_result _) as [[|]|]; [simpl; lia| |done].
  destruct (dog_result _) as [[|]|]; [simpl; lia|simpl; lia|done].
Qed.

Lemma for_each_main_loads (ps : list string) (w : World) (preds : list string) :
  run (for_each main_algorithm ps) w = Ok preds ->
  length preds = length ps /\
  default_graph w + length ps
    <= default_graph (exec (for_each main_algorithm ps) w)
    <= default_graph w + 2 * length ps.
Proof.
  revert w preds. induction ps as [|p ps IH]; intros w preds.
  - unfold run, exec. simpl. intros [= <-]. simpl. lia.
  - unfold run, exec. cbn [for_each].
    destruct (main_algorithm p w) as [[m|e] w1] eqn:Hmain.
    + erewrite bind_ok by exact Hmain.
      destruct (for_each main_algorithm ps w1) as [[ms|e] w2] eqn:Hrest.
      * erewrite bind_ok by exact Hrest. unfold ret. simpl. intros [= <-].
        destruct (IH w1 ms) as [Hlen Hg]; [by unfold run; rewrite Hrest|].
        unfold exec in Hg. rewrite Hrest in Hg. simpl in Hg.
        pose proof (main_algorithm_loads p w m) as Hm.
        unfold run, exec in Hm. rewrite Hmain in Hm. simpl in Hm.
        specialize (Hm eq_refl). simpl. lia.
      * erewrite bind_raise by exact Hrest. done.
    + erewrite bind_raise by exact Hmain. done.
Qed.

(** The models are reloaded for every file: when [/predictions] renders
    [n] predictions, the default graph has been replaced at least [n] and
    at most [2 n] times, one load of a model per replacement. *)
Theorem predictions_reloads_models_per_file
    (w : World) (urls : list string) (response : Response) :
  session w !! "file_urls" = Some urls ->
  run predictions w = Ok response ->
  exists preds,
    response = Template "predictions.html"
                 [("file_urls", urls); ("predictions", preds)] /\
    length preds = length (iterdir (uploads w)) /\
    default_graph w + length preds
      <= default_graph (exec predictions w)
      <= default_graph w + 2 * length preds.
Proof.
  intros Hurls. unfold run, exec, predictions.
  erewrite (bind_ok (session_get _)); [|by apply session_get_Some].
  erewrite (bind_ok (session_pop _)); [|reflexivity].
  set (w1 := set_session (delete "file_urls" (session w)) w).
  destruct (uploads w) as [|m] eqn:Hm.
  - erewrite (bind_raise path_iterdir); [done|]. by apply path_iterdir_missing.
  - erewrite (bind_ok path_iterdir); [|by apply (path_iterdir_present w1 m)].
    cbn [iterdir].
    destruct (for_each main_algorithm (upload_path <$> listdir m) w1)
      as [[preds|e] w2] eqn:Hloop.
    + erewrite bind_ok by exact Hloop. unfold ret. simpl. intros [= <-].
      destruct (for_each_main_loads (upload_path <$> listdir m) w1 preds)
        as [Hlen Hg]; [by unfold run; rewrite Hloop|].
      unfold exec in Hg. rewrite Hloop in Hg. simpl in Hg.
      rewrite length_fmap in Hlen, Hg. exists preds. rewrite Hlen. by eauto.
    + erewrite bind_raise by exact Hloop. done.
Qed.

End ModelLoads.

Section ViewProperties.

Context {E : External} `{!ExternalSpec E}.

(** An upload of files with plain names into an existing directory of
    regular files stops at the first file [photos.save] refuses, with
    nothing undone: the request fails with [UploadNotAllowed], the files
    sent before the refused one stay in the directory and their URLs stay
    in the session list, and neither the refused file nor any after it is
    stored. *)
Theorem index_post_partial_upload
    (request : Request) (w : World)
    (before : list FileStorage) (bad : FileStorage) (after : list FileStorage) :
  flat (uploads w) ->
  method request = POST ->
  request_files request = before ++ bad :: after ->
  Forall (fun file => plain_name (filename file) = true) (request_files request) ->
  Forall (fun file => file_allowed (filename file) = true) before ->
  file_allowed (filename bad) = false ->
  run (index request) w = Raise UploadNotAllowed /\
  session (exec (index request) w) !! "file_urls"
    = Some (photos_url <$> (store_all ∅ before).1) /\
  uploads (exec (index request) w) = (store_all ∅ before).2 /\
  size (uploads (exec (index request) w)) = length before.
Proof.
  intros Hflat Hpost Hfiles Hplain Hok Hbad. unfold run, exec.
  rewrite (index_post_any request w Hflat Hpost Hplain), Hfiles.
  rewrite (store_accepted_refused ∅ before bad after Hok Hbad). simpl.
  split; [done|]. split; [by rewrite lookup_insert_eq|]. split; [done|].
  destruct (store_all_spec before ∅) as (Hlen & _).
  rewrite <- Hlen, <- iterdir_length.
  symmetry. apply Permutation_length, store_all_listing.
Qed.

(** How the home page fails. When the upload directory is missing, the
    listing raises [FileNotFoundError] and nothing is changed. When the
    directory holds a sub-directory, the purge raises [IsADirectoryError]
    on it: the sub-directory stays and the session list is not reset.
    When the directory holds regular files only and the files of the
    request have plain names, a GET returns the form and a POST returns
    unless [photos.save] refuses one of its files. *)
Theorem index_failure_modes (request : Request) (w : World) :
  (uploads w = Missing -> index request w = (Raise FileNotFoundError, w)) /\
  (forall m name,
     uploads w = Present m -> m !! name = Some SubDirectory ->
     run (index request) w = Raise IsADirectoryError /\
     session (exec (index request) w) = session w /\
     entries (uploads (exec (index request) w)) !! name = Some SubDirectory) /\
  (flat (uploads w) ->
   Forall (fun file => plain_name (filename file) = true) (request_files request) ->
   run (index request) w =
     match method request with
     | GET => Ok (Template "index.html" [])
     | POST =>
         if forallb (fun file => file_allowed (filename file)) (request_files request)
         then Ok (Text "uploading...")
         else Raise UploadNotAllowed
     end).
Proof.
  split; [apply index_missing|]. split.
  - intros m name Hm Hname.
    destruct (index_sub_directory request w m name Hm Hname) as (m' & Hrun & Hm').
    unfold run, exec. rewrite Hrun. simpl. by eauto.
  - intros Hflat Hplain. unfold run. destruct (method request) eqn:Hmethod.
    + by rewrite (index_get_eq request w Hflat Hmethod).
    + rewrite (index_post_any request w Hflat Hmethod Hplain). simpl.
      by rewrite store_accepted_ok.
Qed.

(** A GET of the home page with the upload directory holding regular
    files only renders the form, and leaves nothing to show: [/results]
    then redirects home, and [/predictions] renders an empty page when
    the session had a URL list and fails with [KeyError] when it had none
    (the GET empties a list but does not create one). *)
Theorem index_get_leaves_nothing_to_show (request : Request) (w : World) :
  flat (uploads w) ->
  method request = GET ->
  run (index request) w = Ok (Template "index.html" []) /\
  run uploaded_images (exec (index request) w) = Ok (Redirect "/") /\
  run predictions (exec (index request) w) =
    match session w !! "file_urls" with
    | Some _ =>
        Ok (Template "predictions.html" [("file_urls", []); ("predictions", [])])
    | None => Raise (KeyError "file_urls")
    end.
Proof.
  intros Hflat Hm. unfold run, exec. rewrite (index_get_eq request w Hflat Hm). simpl.
  split; [done|]. rewrite uploaded_images_eq. simpl.
  destruct (session w !! "file_urls") as [l|] eqn:Hl.
  - simpl. rewrite lookup_insert_eq. split; [done|].
    erewrite predictions_eq; [|simpl; apply lookup_insert_eq].
    pose proof iterdir_empty as Hempty. unfold empty, directory_empty in Hempty.
    simpl in *. by rewrite Hempty.
  - simpl. rewrite Hl. split; [done|].
    by rewrite predictions_no_key.
Qed.

(** After an accepted upload of files with plain names into an existing
    directory of regular files, [/results] shows exactly the URLs of the
    uploaded files, in upload order, one per file; after an upload
    request that carries no file it redirects home. *)
Theorem upload_then_results (request : Request) (w : World) :
  flat (uploads w) ->
  method request = POST ->
  Forall (fun file => plain_name (filename file) = true) (request_files request) ->
  Forall (fun file => file_allowed (filename file) = true) (request_files request) ->
  let names := (store_all ∅ (request_files request)).1 in
  length names = length (request_files request) /\
  run uploaded_images (exec (index request) w) =
    match request_files request with
    | [] => Ok (Redirect "/")
    | _ :: _ =>
        Ok (Template "uploaded_images.html" [("file_urls", photos_url <$> names)])
    end.
Proof.
  intros Hflat Hpost Hplain Hok names.
  destruct (store_all_spec (request_files request) ∅) as (Hlen & _).
  fold names in Hlen.
  split; [done|]. unfold run, exec.
  rewrite (index_post request w Hflat Hpost Hplain Hok). fold names.
  rewrite uploaded_images_eq. cbn [fst snd session set_session set_uploads].
  rewrite lookup_insert_eq. clearbody names.
  destruct (request_files request) as [|file fs]; destruct names; done.
Qed.

(** When the files of an accepted upload into an existing directory of
    regular files have plain, pairwise distinct names, every file is
    stored under the name the client gave it: the URL list is made of
    those names, each name holds the bytes of its file, and the directory
    has no other entry. *)
Theorem distinct_file_names_are_kept (request : Request) (w : World) :
  flat (uploads w) ->
  method request = POST ->
  Forall (fun file => plain_name (filename file) = true) (request_files request) ->
  Forall (fun file => file_allowed (filename file) = true) (request_files request) ->
  NoDup (filename <$> request_files request) ->
  session (exec (index request) w) !! "file_urls"
    = Some ((fun file => photos_url (filename file)) <$> request_files request) /\
  (forall file,
     file ∈ request_files request ->
     uploads (exec (index request) w) !! filename file = Some (stream file)) /\
  (forall name,
     name ∉ filename <$> request_files request ->
     entries (uploads (exec (index request) w)) !! name = None).
Proof.
  intros Hflat Hpost Hplain Hok Hnd.
  destruct (store_all_spec (request_files request) ∅) as (_ & _ & _ & Hold & Hat & _).
  assert (Hnames : (store_all ∅ (request_files request)).1
                   = filename <$> request_files request).
  { apply store_all_distinct; [done|]. intros file _. apply lookup_empty. }
  unfold exec. rewrite (index_post request w Hflat Hpost Hplain Hok). simpl.
  rewrite Hnames in *. split; [|split].
  - rewrite lookup_insert_eq. by rewrite <- list_fmap_compose.
  - intros file [i Hi]%list_elem_of_lookup.
    apply (Hat i); [|done]. by rewrite list_lookup_fmap, Hi.
  - intros name Hname. rewrite (Hold name Hname). apply lookup_empty.
Qed.

(** Of several files sent under one form field name only the first is
    stored: a file under a name already seen leaves the same directory,
    session and response as the request without it. *)
Theorem repeated_field_keeps_first_file
    (m : Method) (md1 md2 : list (string * FileStorage))
    (f : string) (file : FileStorage) (w : World) :
  f ∈ md1.*1 ->
  request_files (mkRequest m (md1 ++ (f, file) :: md2))
    = request_files (mkRequest m (md1 ++ md2)) /\
  index (mkRequest m (md1 ++ (f, file) :: md2)) w
    = index (mkRequest m (md1 ++ md2)) w.
Proof.
  intros Hf. split.
  - unfold request_files. simpl.
    rewrite multidict_keys_skip by by right.
    apply omap_ext_all. intros k. apply multidict_get_skip. by left.
  - apply index_same_loop; simpl.
    + done.
    + apply multidict_keys_skip. by right.
    + intros k. apply multidict_get_skip. by left.
Qed.

(** What is classified is what was uploaded: after an accepted upload of
    files with plain names into an existing directory of regular files,
    the path the predictions view builds for a stored name reads back the
    bytes of the file stored under that name, and [main_algorithm] on that
    path gives the message of these bytes. *)
Theorem uploaded_file_is_read_back
    (request : Request) (w : World) (i : nat) (name : string) (file : FileStorage) :
  flat (uploads w) ->
  method request = POST ->
  Forall (fun file => plain_name (filename file) = true) (request_files request) ->
  Forall (fun file => file_allowed (filename file) = true) (request_files request) ->
  (store_all ∅ (request_files request)).1 !! i = Some name ->
  request_files request !! i = Some file ->
  name ∈ iterdir (uploads (exec (index request) w)) /\
  read_file (exec (index request) w) (upload_path name) = Some (stream file) /\
  run (main_algorithm (upload_path name)) (exec (index request) w)
    = message_result (Some (stream file)).
Proof.
  intros Hflat Hpost Hplain Hok Hname Hfile.
  destruct (store_all_spec (request_files request) ∅) as (_ & _ & _ & _ & Hat & _).
  assert (Hup : uploads (exec (index request) w) = (store_all ∅ (request_files request)).2).
  { unfold exec. by rewrite (index_post request w Hflat Hpost Hplain Hok). }
  assert (Hread : read_file (exec (index request) w) (upload_path name)
                  = Some (stream file)).
  { rewrite read_file_upload, Hup. by eapply Hat. }
  split; [|split; [done|]].
  - rewrite Hup, <- store_all_listing. by eapply list_elem_of_lookup_2.
  - unfold run. by rewrite main_algorithm_eq, Hread.
Qed.


(** The predictions view pairs the session's URL list with one
    prediction per file of the directory, and never compares the two: the
    number of predictions is the number of files in the directory,
    whatever the number of URLs. *)
Theorem predictions_count_is_directory_size
    (w : World) (urls : list string) (response : Response) :
  session w !! "file_urls" = Some urls ->
  run predictions w = Ok response ->
  exists preds,
    response = Template "predictions.html"
                 [("file_urls", urls); ("predictions", preds)] /\
    length preds = size (uploads w).
Proof.
  intros Hurls. unfold run. rewrite (predictions_eq w urls Hurls). simpl.
  destruct (uploads w) as [|m] eqn:Hm; [done|].
  destruct (collect _) as [preds|] eqn:Hc; [|done]. intros [= <-].
  exists preds. split; [done|].
  apply collect_length in Hc. by rewrite Hc, length_fmap, iterdir_length.
Qed.

End ViewProperties.

Section PredictionsProperties.

Context {E : External}.

Lemma for_each_main_stops (ps1 : list string) (p : string) (ps2 : list string)
    (w : World) (e : exn) :
  Forall (fun q => exists m, message_result (read_file w q) = Ok m) ps1 ->
  message_result (read_file w p) = Raise e ->
  for_each main_algorithm (ps1 ++ p :: ps2) w
    = (Raise e, exec (for_each main_algorithm (ps1 ++ [p])) w).
Proof.
  revert w. induction ps1 as [|q ps1 IH]; intros w Hok Hp.
  - unfold exec. simpl.
    erewrite !bind_raise by (by rewrite main_algorithm_eq, Hp). done.
  - apply Forall_cons in Hok as [[m Hq] Hok].
    unfold exec. rewrite <- !app_comm_cons. cbn [for_each].
    erewrite !(bind_ok (main_algorithm q)) by (by rewrite main_algorithm_eq, Hq).
    destruct (after_main_frame q w) as [Hu _].
    specialize (IH (after_main q w)).
    unfold bind. rewrite IH.
    + unfold exec.
      by destruct (for_each main_algorithm (ps1 ++ [p]) (after_main q w)) as [[ms|e'] w'].
    + eapply Forall_impl; [exact Hok|]. intros q' [m' Hm']. exists m'.
      by rewrite (read_file_uploads w).
    + by rewrite (read_file_uploads w).
Qed.


(** [/predictions] stops at the first file, in listing order, on which
    [main_algorithm] raises: the view raises that very exception, the
    predictions made so far are dropped, and the files listed after it are
    never looked at. *)
Theorem predictions_stops_at_first_failure
    (w : World) (urls before : list string) (name : string) (after : list string)
    (e : exn) :
  session w !! "file_urls" = Some urls ->
  iterdir (uploads w) = before ++ name :: after ->
  Forall (fun n => exists m, message_result (uploads w !! n) = Ok m) before ->
  message_result (uploads w !! name) = Raise e ->
  run predictions w = Raise e /\
  exec predictions w
    = exec (for_each main_algorithm (upload_path <$> before ++ [name]))
           (set_session (delete "file_urls" (session w)) w).
Proof.
  intros Hurls Hlist Hbefore Hname.
  assert (Hm : exists m, uploads w = Present m).
  { destruct (uploads w) as [|m]; [by destruct before | by eauto]. }
  destruct Hm as [m Hm].
  unfold run, exec at 1, predictions.
  erewrite (bind_ok (session_get _)); [|by apply session_get_Some].
  erewrite (bind_ok (session_pop _)); [|reflexivity].
  set (w1 := set_session (delete "file_urls" (session w)) w).
  erewrite (bind_ok path_iterdir); [|by apply (path_iterdir_present w1 m)].
  replace (listdir m) with (iterdir (uploads w)) by by rewrite Hm.
  rewrite Hlist, fmap_app, fmap_cons.
  erewrite bind_raise; [done|].
  replace (upload_path <$> before ++ [name])
    with ((upload_path <$> before) ++ [upload_path name])
    by by rewrite fmap_app.
  apply for_each_main_stops.
  - apply Forall_fmap. eapply Forall_impl; [exact Hbefore|].
    intros n [msg Hmsg]. exists msg. simpl. by rewrite read_file_upload.
  - by rewrite read_file_upload.
Qed.

End PredictionsProperties.

(** ** The further properties on the concrete instance *)

(** An empty file: no model can load it. *)
Lemma unloadable_image_raises_after_model_load_witness :
  run (@dog_detector demo "/srv/app/uploads/bad.jpg") (with_files [("bad.jpg", [])])
    = Raise ImageError /\
  resnet50_graph
    (exec (@dog_detector demo "/srv/app/uploads/bad.jpg") (with_files [("bad.jpg", [])]))
    = Some 1.
Proof.
  destruct (@unloadable_image_raises_after_model_load demo
              "/srv/app/uploads/bad.jpg" (with_files [("bad.jpg", [])]))
    as (_ & Hrun & Hgraph & _); [vm_compute; reflexivity|].
  split; [exact Hrun | exact Hgraph].
Defined.

(** A face and a dog in the directory: one load for the face, two for the
    dog. *)
Lemma predictions_reloads_models_per_file_witness :
  let w := set_session {["file_urls" := ["/_uploads/photos/a.jpg"; "/_uploads/photos/b.jpg"]]}
             (with_files [("a.jpg", face_jpg); ("b.jpg", dog_jpg)]) in
  2 <= default_graph (exec (@predictions demo) w) <= 4.
Proof.
  intros w.
  destruct (@predictions_reloads_models_per_file demo w
              ["/_uploads/photos/a.jpg"; "/_uploads/photos/b.jpg"]
              (Template "predictions.html"
                 [("file_urls", ["/_uploads/photos/a.jpg"; "/_uploads/photos/b.jpg"]);
                  ("predictions",
                   [human_message "Afghan_hound"; dog_message "Airedale_terrier"])]))
    as (preds & Heq & _ & Hg); [vm_compute; reflexivity ..|].
  injection Heq as <-. exact Hg.
Defined.

(** A text file between two images: the first image stays, the rest is
    not stored. *)
Lemma index_post_partial_upload_witness :
  let request := post [("file[0]", mkFile "a.jpg" face_jpg);
                       ("file[1]", mkFile "notes.txt" dog_jpg);
                       ("file[2]", mkFile "c.jpg" blank_jpg)] in
  run (@index demo request) fresh_world = Raise UploadNotAllowed /\
  uploads (exec (@index demo request) fresh_world) = write_file "a.jpg" face_jpg ∅.
Proof.
  intros request.
  destruct (@index_post_partial_upload demo demo_spec request fresh_world
              [mkFile "a.jpg" face_jpg] (mkFile "notes.txt" dog_jpg)
              [mkFile "c.jpg" blank_jpg])
    as (Hrun & _ & Hup & _);
    [apply flat_empty | reflexivity | vm_compute; reflexivity
    | unfold request_files; simpl; repeat constructor | repeat constructor
    | vm_compute; reflexivity |].
  split; [exact Hrun|]. rewrite Hup. vm_compute. reflexivity.
Defined.

(** The three ways the home page fails: the directory is missing; an
    upload of [2019/a.jpg] has left a sub-directory; a text file is
    uploaded. *)
Lemma index_failure_modes_witness :
  run (@index demo (mkRequest GET [])) (set_uploads Missing fresh_world)
    = Raise FileNotFoundError /\
  run (@index demo (mkRequest GET []))
      (exec (@index demo (post [("file[0]", mkFile "2019/a.jpg" face_jpg)])) fresh_world)
    = Raise IsADirectoryError /\
  run (@index demo (post [("file[0]", mkFile "notes.txt" dog_jpg)])) fresh_world
    = Raise UploadNotAllowed.
Proof.
  split; [|split].
  - destruct (@index_failure_modes demo demo_spec (mkRequest GET [])
                (set_uploads Missing fresh_world)) as (Hmissing & _).
    unfold run. by rewrite Hmissing.
  - destruct (@index_failure_modes demo demo_spec (mkRequest GET [])
                (exec (@index demo (post [("file[0]", mkFile "2019/a.jpg" face_jpg)]))
                   fresh_world)) as (_ & Hsub & _).
    destruct (Hsub {["2019" := SubDirectory]} "2019") as (Hrun & _);
      [vm_compute; reflexivity ..|].
    exact Hrun.
  - destruct (@index_failure_modes demo demo_spec
                (post [("file[0]", mkFile "notes.txt" dog_jpg)]) fresh_world)
      as (_ & _ & Hflat).
    rewrite Hflat; [vm_compute; reflexivity | apply flat_empty |].
    unfold request_files. simpl. repeat constructor.
Defined.

(** A GET after an upload: nothing left to show. *)
Lemma index_get_leaves_nothing_to_show_witness :
  let w := exec (@index demo two_files) fresh_world in
  run uploaded_images (exec (@index demo (mkRequest GET [])) w) = Ok (Redirect "/") /\
  run (@predictions demo) (exec (@index demo (mkRequest GET [])) w)
    = Ok (Template "predictions.html" [("file_urls", []); ("predictions", [])]).
Proof.
  intros w.
  destruct (@index_get_leaves_nothing_to_show demo demo_spec (mkRequest GET []) w)
    as (_ & Hresults & Hpredictions).
  - apply (@index_keeps_flat demo demo_spec); [apply flat_empty | apply two_files_plain].
  - reflexivity.
  - split; [exact Hresults|]. rewrite Hpredictions. vm_compute. reflexivity.
Defined.

(** The two-file upload, then [/results]. *)
Lemma upload_then_results_witness :
  run uploaded_images (exec (@index demo two_files) fresh_world)
    = Ok (Template "uploaded_images.html"
            [("file_urls", ["/_uploads/photos/a.jpg"; "/_uploads/photos/b.jpg"])]).
Proof.
  destruct (@upload_then_results demo demo_spec two_files fresh_world
              flat_fresh_world eq_refl two_files_plain two_files_allowed) as [_ Hrun].
  rewrite Hrun. vm_compute. reflexivity.
Defined.

(** The two-file upload has distinct names. *)
Lemma distinct_file_names_are_kept_witness :
  session (exec (@index demo two_files) fresh_world) !! "file_urls"
    = Some ["/_uploads/photos/a.jpg"; "/_uploads/photos/b.jpg"].
Proof.
  destruct (@distinct_file_names_are_kept demo demo_spec two_files fresh_world
              flat_fresh_world eq_refl two_files_plain two_files_allowed) as (Hs & _).
  { unfold request_files. simpl. apply (bool_decide_unpack _). vm_compute. exact I. }
  rewrite Hs. vm_compute. reflexivity.
Defined.

(** Two files under the field name [file]: the second is not stored. *)
Lemma repeated_field_keeps_first_file_witness :
  uploads (exec (@index demo (post [("file", mkFile "a.jpg" face_jpg);
                                    ("file", mkFile "b.jpg" dog_jpg)])) fresh_world)
    = write_file "a.jpg" face_jpg ∅.
Proof.
  destruct (@repeated_field_keeps_first_file demo POST
              [("file", mkFile "a.jpg" face_jpg)] [] "file" (mkFile "b.jpg" dog_jpg)
              fresh_world) as [_ Hindex].
  { apply elem_of_cons. by left. }
  unfold exec, post. simpl app in Hindex. rewrite Hindex. vm_compute. reflexivity.
Defined.

(** The second file of the two-file upload is classified as the blank
    image it is. *)
Lemma uploaded_file_is_read_back_witness :
  run (@main_algorithm demo (@upload_path demo "b.jpg"))
      (exec (@index demo two_files) fresh_world)
    = Ok unknown_message.
Proof.
  destruct (@uploaded_file_is_read_back demo demo_spec two_files fresh_world
              1 "b.jpg" (mkFile "b.jpg" blank_jpg)
              flat_fresh_world eq_refl two_files_plain two_files_allowed)
    as (_ & _ & Hrun); [vm_compute; reflexivity ..|].
  rewrite Hrun. vm_compute. reflexivity.
Defined.


(** One URL in the session, two files in the directory: two predictions. *)
Lemma predictions_count_is_directory_size_witness :
  let w := set_session {["file_urls" := ["/_uploads/photos/a.jpg"]]}
             (with_files [("a.jpg", face_jpg); ("b.jpg", blank_jpg)]) in
  exists preds,
    run (@predictions demo) w
      = Ok (Template "predictions.html"
              [("file_urls", ["/_uploads/photos/a.jpg"]); ("predictions", preds)]) /\
    length preds = 2.
Proof.
  intros w.
  destruct (@predictions_count_is_directory_size demo demo_spec w
              ["/_uploads/photos/a.jpg"]
              (Template "predictions.html"
                 [("file_urls", ["/_uploads/photos/a.jpg"]);
                  ("predictions", [human_message "Afghan_hound"; unknown_message])]))
    as (preds & Heq & Hlen); [vm_compute; reflexivity ..|].
  injection Heq as <-. exists [human_message "Afghan_hound"; unknown_message].
  split; [vm_compute; reflexivity | exact Hlen].
Defined.

(** A face, an unreadable file, a dog, listed in this order: the view
    fails on the second file. *)
Lemma predictions_stops_at_first_failure_witness :
  let w := set_session {["file_urls" := ["/_uploads/photos/a.jpg"]]}
             (with_files [("c.jpg", face_jpg); ("a.jpg", []); ("b.jpg", dog_jpg)]) in
  run (@predictions demo) w = Raise CvError.
Proof.
  intros w.
  destruct (@predictions_stops_at_first_failure demo w ["/_uploads/photos/a.jpg"]
              ["c.jpg"] "a.jpg" ["b.jpg"] CvError) as [Hrun _].
  - vm_compute. reflexivity.
  - vm_compute. reflexivity.
  - repeat constructor. exists (human_message "Afghan_hound"). vm_compute. reflexivity.
  - vm_compute. reflexivity.
  - exact Hrun.
Defined.

Section Independence.

Context {E : External}.

(** The message [main_algorithm] returns depends on the bytes of the file
    and on nothing else: not on the path, not on the rest of the
    directory or the session, not on the calls made before (nothing is
    kept from one call to the next). And the call leaves the directory and
    the session as they are. *)
Theorem main_algorithm_depends_on_bytes_only
    (path1 path2 : string) (w1 w2 : World) :
  read_file w1 path1 = read_file w2 path2 ->
  run (main_algorithm path1) w1 = run (main_algorithm path2) w2 /\
  uploads (exec (main_algorithm path1) w1) = uploads w1 /\
  session (exec (main_algorithm path1) w1) = session w1 /\
  run (main_algorithm path1) (exec (main_algorithm path1) w1)
    = run (main_algorithm path1) w1.
Proof.
  intros Hread. unfold run, exec. rewrite !main_algorithm_eq. simpl.
  destruct (after_main_frame path1 w1) as [Hu Hs].
  split; [by rewrite Hread|]. split; [done|]. split; [done|].
  by rewrite (read_file_uploads w1 (after_main path1 w1) path1 Hu).
Qed.

End Independence.

(** The same bytes under two names, in two different worlds. *)
Lemma main_algorithm_depends_on_bytes_only_witness :
  run (@main_algorithm demo "/srv/app/uploads/x.jpg") (with_files [("x.jpg", dog_jpg)])
    = run (@main_algorithm demo "/srv/app/uploads/y.jpg")
          (exec (@index demo (post [("file", mkFile "y.jpg" dog_jpg)]))
             (with_files [("x.jpg", face_jpg)])).
Proof.
  apply (@main_algorithm_depends_on_bytes_only demo). vm_compute. reflexivity.
Defined.
